(** * Dad's book club voting: a model of [main.py] and its properties

    The program reads survey rows, collects the book titles, enumerates every
    non-empty combination of titles, assigns each participant to the first
    book of the combination on their list, keeps the combinations in which
    every book has a quorum, and sorts the survivors.

    Conventions of the model:
    - a Python [str] is a [string]; its characters are code points below 256;
    - a Python [int] is a [Z] (ranks, running sums) or a [nat] (lengths);
    - a Python [float] is an abstract type with the operations the program
      uses (class [PyFloat]); [DoubleFloat] is the instance of the IEEE 754
      doubles that Python computes with, [RFloat] the instance of exact real
      arithmetic, used where rounding does not change the outcome;
    - a [tuple] or [list] is a [list]; a [set] is a [gset], iterated in the
      order of [elements]; a [dict] is an association list in insertion order;
    - an exception is a value [Raise e] of the type [result]. *)

From Stdlib Require Import ZArith Reals Lra Lia Ascii String.
From Stdlib Require SpecFloat.
From stdpp Require Import base list gmap sets strings pretty sorting.

Set Warnings "-clear-no-such-hyp".

Local Open Scope string_scope.
Local Open Scope Z_scope.
Local Open Scope nat_scope.
Local Open Scope list_scope.

(** ** Exceptions *)

Inductive exn : Set :=
| ValueError
| IndexError
| KeyError
| ZeroDivisionError
| StopIteration.

Inductive result (A : Type) : Type :=
| Ok (a : A)
| Raise (e : exn).
Arguments Ok {A} a.
Arguments Raise {A} e.

#[global] Instance result_ret : MRet result := @Ok.
#[global] Instance result_bind : MBind result :=
  λ A B f m, match m with Ok a => f a | Raise e => Raise e end.

Definition is_Ok {A} (m : result A) : Prop := ∃ a, m = Ok a.

(** A [for] loop whose body may raise: the state is threaded from left to
    right and the first exception ends the loop. *)
Fixpoint foldM {A B} (f : B → A → result B) (l : list A) (b : B) : result B :=
  match l with
  | [] => Ok b
  | x :: l' => b' ← f b x; foldM f l' b'
  end.

(** A list comprehension whose element expression may raise. *)
Fixpoint comprehension {A B} (f : A → result B) (l : list A) : result (list B) :=
  match l with
  | [] => Ok []
  | x :: l' => y ← f x; ys ← comprehension f l'; mret (y :: ys)
  end.

(** [seq[i]] for a non-negative constant index. *)
Definition subscript {A} (l : list A) (i : nat) : result A :=
  match l !! i with
  | Some x => Ok x
  | None => Raise IndexError
  end.

(** ** Strings: [str.split(",")] and [str.strip()] *)

Module Str.

Definition comma : ascii := ","%char.

(** [s.split(",")]: the pieces between the commas, empty pieces kept. *)
Fixpoint split (s : string) : list string :=
  match s with
  | EmptyString => [EmptyString]
  | String c s' =>
      if Ascii.eqb c comma then EmptyString :: split s'
      else match split s' with
           | [] => [String c EmptyString]
           | t :: ts => String c t :: ts
           end
  end.

(** [",".join(l)] *)
Fixpoint join (l : list string) : string :=
  match l with
  | [] => EmptyString
  | [t] => t
  | t :: l' => t +:+ String comma (join l')
  end.

Fixpoint count_commas (s : string) : nat :=
  match s with
  | EmptyString => 0
  | String c s' => (if Ascii.eqb c comma then 1 else 0) + count_commas s'
  end.

(** [c.isspace()] for a code point below 256: tab, line feed, vertical tab,
    form feed, carriage return, the four separators 28..31, space, NEL and
    the no-break space. *)
Definition isspace (c : ascii) : bool :=
  let n := nat_of_ascii c in
  ((9 <=? n) && (n <=? 13)) || ((28 <=? n) && (n <=? 32))
  || (n =? 133) || (n =? 160).

Fixpoint lstrip (s : string) : string :=
  match s with
  | EmptyString => EmptyString
  | String c s' => if isspace c then lstrip s' else s
  end.

Fixpoint rstrip (s : string) : string :=
  match s with
  | EmptyString => EmptyString
  | String c s' =>
      match rstrip s' with
      | EmptyString => if isspace c then EmptyString else String c EmptyString
      | t => String c t
      end
  end.

Definition strip (s : string) : string := rstrip (lstrip s).

Fixpoint all_space (s : string) : bool :=
  match s with
  | EmptyString => true
  | String c s' => isspace c && all_space s'
  end.

Definition starts_with_space (s : string) : bool :=
  match s with
  | EmptyString => false
  | String c _ => isspace c
  end.

Fixpoint ends_with_space (s : string) : bool :=
  match s with
  | EmptyString => false
  | String c EmptyString => isspace c
  | String _ s' => ends_with_space s'
  end.

End Str.

(** ** Configuration constants *)

Definition _MIN_GROUP_SIZE : nat := 3.
Definition _FIRST_NAME_COLUMN_IDX : nat := 3.
Definition _LAST_NAME_COLUMN_IDX : nat := 4.
Definition _BOOK_PREFS_COLUMN_IDX : nat := 6.

(** ** [UserPreference] *)

Record UserPreference : Set := {
  first_name : string;
  last_name : string;
  books_by_preference : list string;
}.

#[global] Instance UserPreference_eq_dec : EqDecision UserPreference.
Proof. solve_decision. Defined.

(** [UserPreference.from_csv_row]: the preference cell is read first, so a
    short row raises [IndexError] there. *)
Definition from_csv_row (row : list string) : result UserPreference :=
  cell ← subscript row _BOOK_PREFS_COLUMN_IDX;
  let books_raw := Str.split cell in
  let books_cleaned := Str.strip <$> books_raw in
  first ← subscript row _FIRST_NAME_COLUMN_IDX;
  last ← subscript row _LAST_NAME_COLUMN_IDX;
  mret {| first_name := first;
          last_name := last;
          books_by_preference := books_cleaned |}.

(** The loop of [get_rank_of_book] over [enumerate(books)], entered with the
    counter at [rank]. *)
Fixpoint get_rank_from (rank : Z) (books : list string) (book : string)
  : result Z :=
  match books with
  | [] => Raise ValueError
  | b :: books' =>
      if decide (b = book) then Ok (rank + 1)%Z
      else get_rank_from (rank + 1)%Z books' book
  end.

Definition get_rank_of_book (self : UserPreference) (book : string) : result Z :=
  get_rank_from 0 (books_by_preference self) book.

(** The rank of the specification: one more than the number of titles that
    stand before the first occurrence of [book]. *)
Definition position_of (book : string) (books : list string) : option nat :=
  fst <$> list_find (λ b, b = book) books.

Definition rank_of (r : UserPreference) (book : string) : Z :=
  match position_of book (books_by_preference r) with
  | Some i => Z.of_nat i + 1
  | None => 0
  end.

(** [_load_csv] from line 120 on, as a function of the rows that the CSV
    reader yields: [next(reader)] drops the header (and raises when there is
    no row), then every row becomes a record. Opening the file, decoding it
    and cutting it into rows are the work of [open] and [csv.reader]; the
    exceptions they raise on their own ([FileNotFoundError],
    [UnicodeDecodeError], [csv.Error]) end the program before or while the
    rows are read and are not part of the model. *)
Definition _load_csv (rows : list (list string)) : result (list UserPreference) :=
  match rows with
  | [] => Raise StopIteration
  | _header :: data => comprehension from_csv_row data
  end.

(** ** Dictionaries in insertion order *)

Section dict.
Context {V : Type}.

Definition dict := list (string * V).

Fixpoint dict_get (d : dict) (k : string) : result V :=
  match d with
  | [] => Raise KeyError
  | (k', v) :: d' => if decide (k' = k) then Ok v else dict_get d' k
  end.

(** [d[k] = v]: an existing key keeps its place, a new one goes last. *)
Fixpoint dict_set (d : dict) (k : string) (v : V) : dict :=
  match d with
  | [] => [(k, v)]
  | (k', v') :: d' =>
      if decide (k' = k) then (k, v) :: d' else (k', v') :: dict_set d' k v
  end.

Definition dict_keys (d : dict) : list string := d.*1.
Definition dict_values (d : dict) : list V := d.*2.
End dict.
Arguments dict : clear implicits.

(** ** Floating point numbers as an interface *)

Class PyFloat := {
  float : Type;
  (** [float(n)] *)
  float_of_int : Z → float;
  (** [a / b] on two ints with [b] not zero *)
  int_truediv : Z → Z → float;
  (** [x + y] *)
  float_add : float → float → float;
  (** [x / y] with [y] not zero *)
  float_div : float → float → float;
  (** [x ** 0.5] *)
  float_pow_half : float → float;
  (** [x == y] and [x < y] *)
  float_eqb : float → float → bool;
  float_ltb : float → float → bool;
}.

(** *** IEEE 754 doubles *)

Module Double.
Definition prec : Z := 53.
Definition emax : Z := 1024.

(** The double nearest to an integer ([float(n)]), ties to even. *)
Definition of_Z (z : Z) : SpecFloat.spec_float :=
  SpecFloat.binary_normalize prec emax z 0 false.

(** The real number that a finite double stands for, 0 for the others. *)
Definition value (x : SpecFloat.spec_float) : R :=
  match x with
  | SpecFloat.S754_finite sign m e =>
      let mantissa := IZR (if sign then Z.neg m else Z.pos m) in
      match e with
      | Z.neg p => (mantissa / IZR (2 ^ Z.pos p))%R
      | _ => (mantissa * IZR (2 ^ e))%R
      end
  | _ => 0%R
  end.

(** An int as it stands, with a mantissa of any length. *)
Definition exact (z : Z) : SpecFloat.spec_float :=
  match z with
  | Z0 => SpecFloat.S754_zero false
  | Z.pos p => SpecFloat.S754_finite false p 0
  | Z.neg p => SpecFloat.S754_finite true p 0
  end.

(** [a / b] on two ints: the quotient of the ints themselves, rounded once. *)
Definition truediv (a b : Z) : SpecFloat.spec_float :=
  SpecFloat.SFdiv prec emax (exact a) (exact b).
End Double.

(** Python's [float] on the usual platforms: every operation returns the
    double nearest to the exact result, ties to even. [x ** 0.5] is the C
    library's [pow], taken here as the correctly rounded square root. The
    [OverflowError] of a conversion or quotient beyond the range of the
    doubles (an int of more than 1024 bits) is left out. *)
Definition DoubleFloat : PyFloat := {|
  float := SpecFloat.spec_float;
  float_of_int := Double.of_Z;
  int_truediv := Double.truediv;
  float_add := SpecFloat.SFadd Double.prec Double.emax;
  float_div := SpecFloat.SFdiv Double.prec Double.emax;
  float_pow_half := SpecFloat.SFsqrt Double.prec Double.emax;
  float_eqb := SpecFloat.SFeqb;
  float_ltb := SpecFloat.SFltb;
|}.

(** *** Exact real arithmetic

    The same operations without rounding: what the doubles approximate. *)
Definition Req_bool (x y : R) : bool := if Req_dec_T x y then true else false.
Definition Rlt_bool (x y : R) : bool := if Rlt_dec x y then true else false.

Definition RFloat : PyFloat := {|
  float := R;
  float_of_int := IZR;
  int_truediv := λ a b, (IZR a / IZR b)%R;
  float_add := Rplus;
  float_div := Rdiv;
  float_pow_half := sqrt;
  float_eqb := Req_bool;
  float_ltb := Rlt_bool;
|}.

(** ** The Combo Scorer: who supports which book *)

(** [{book: [] for book in books}] *)
Definition empty_supporters (books : list string) : dict (list UserPreference) :=
  fold_left (λ d book, dict_set d book []) books [].

(** The inner loop of [from_books_and_user_prefs] for one record: the first
    preferred book that is in the combo receives the record, and [break]
    leaves the rest of the list unread. *)
Fixpoint scan_preferences (books : list string) (user_pref : UserPreference)
    (prefs : list string) (d : dict (list UserPreference))
  : result (dict (list UserPreference)) :=
  match prefs with
  | [] => Ok d
  | preferred_book :: prefs' =>
      if decide (preferred_book ∈ books) then
        supporters ← dict_get d preferred_book;
        Ok (dict_set d preferred_book (supporters ++ [user_pref]))
      else scan_preferences books user_pref prefs' d
  end.

(** Lines 77 to 82 of [from_books_and_user_prefs]. *)
Definition assign_supporters (books : list string)
    (user_prefs : list UserPreference) : result (dict (list UserPreference)) :=
  foldM (λ d user_pref,
           scan_preferences books user_pref (books_by_preference user_pref) d)
        user_prefs (empty_supporters books).

(** The specification's reading: the most preferred book of the record that
    is a member of the combo. *)
Definition first_match (books : list string) (r : UserPreference)
  : option string :=
  snd <$> list_find (λ b, b ∈ books) (books_by_preference r).

(** The (book, supporting record) pairs of a mapping, flattened in the order
    in which [__post_init__] visits them. *)
Definition pairs (d : dict (list UserPreference))
  : list (string * UserPreference) :=
  d ≫= λ item, (λ r, (item.1, r)) <$> item.2.

Definition ranks (d : dict (list UserPreference)) : list Z :=
  (λ p, rank_of p.2 p.1) <$> pairs d.

Definition sumZ (l : list Z) : Z := foldr Z.add 0%Z l.

(** ** [ComboSummary] and its statistics *)

Section summary.
Context {PF : PyFloat}.

Record ComboSummary := {
  books : list string;
  book_to_user_pref : dict (list UserPreference);
  avg_score : float;
  harmonic_mean : float;
  root_mean_square : float;
}.

(** The four accumulators of [__post_init__]. *)
Record running := {
  avg_running_sum : Z;
  harmonic_running_sum : float;
  squared_running_sum : Z;
  score_count : Z;
}.

(** [a / b] on ints *)
Definition py_int_truediv (a b : Z) : result float :=
  if decide (b = 0%Z) then Raise ZeroDivisionError
  else Ok (int_truediv a b).

(** [a / y] with an int above a float *)
Definition py_int_float_truediv (a : Z) (y : float) : result float :=
  if float_eqb y (float_of_int 0) then Raise ZeroDivisionError
  else Ok (float_div (float_of_int a) y).

(** The body of the inner loop, lines 61 to 66. *)
Definition score_user (book : string) (acc : running)
    (user_pref : UserPreference) : result running :=
  user_score ← get_rank_of_book user_pref book;
  inverse ← py_int_truediv 1 user_score;
  mret {| avg_running_sum := avg_running_sum acc + user_score;
          harmonic_running_sum :=
            float_add (harmonic_running_sum acc) inverse;
          squared_running_sum := squared_running_sum acc + user_score ^ 2;
          score_count := score_count acc + 1 |}%Z.

Definition score_book (acc : running)
    (item : string * list UserPreference) : result running :=
  foldM (score_user item.1) item.2 acc.

Definition running_zero : running :=
  {| avg_running_sum := 0;
     harmonic_running_sum := float_of_int 0;
     squared_running_sum := 0;
     score_count := 0 |}.

(** Construction of a [ComboSummary]: the two fields are stored, then
    [__post_init__] computes the three statistics or raises. *)
Definition __post_init__ (books : list string)
    (book_to_user_pref : dict (list UserPreference)) : result ComboSummary :=
  acc ← foldM score_book book_to_user_pref running_zero;
  avg ← py_int_truediv (avg_running_sum acc) (score_count acc);
  harmonic ← py_int_float_truediv (score_count acc) (harmonic_running_sum acc);
  mean_square ← py_int_truediv (squared_running_sum acc) (score_count acc);
  mret {| books := books;
          book_to_user_pref := book_to_user_pref;
          avg_score := avg;
          harmonic_mean := harmonic;
          root_mean_square := float_pow_half mean_square |}.

Definition from_books_and_user_prefs (books : list string)
    (user_prefs : list UserPreference) : result ComboSummary :=
  book_to_user_pref ← assign_supporters books user_prefs;
  __post_init__ books book_to_user_pref.

(** [generate_combo_summaries] *)
Definition generate_combo_summaries (user_prefs : list UserPreference)
    (book_combos : list (list string)) : result (list ComboSummary) :=
  foldM (λ combo_summaries combo,
           combo_summary ← from_books_and_user_prefs combo user_prefs;
           mret (combo_summaries ++ [combo_summary]))
        book_combos [].

(** ** The Quorum Filter *)

(** The condition of line 170. *)
Definition has_quorum (combo_summary : ComboSummary) : bool :=
  forallb (λ user_prefs : list UserPreference,
             _MIN_GROUP_SIZE <=? length user_prefs)
          (dict_values (book_to_user_pref combo_summary)).

Definition filter_step (st : nat * list ComboSummary)
    (combo_summary : ComboSummary) : nat * list ComboSummary :=
  let '(filter_count, valid_combo_summaries) := st in
  if has_quorum combo_summary
  then (filter_count, valid_combo_summaries ++ [combo_summary])
  else (filter_count + 1, valid_combo_summaries).

(** [filter_invalid_summaries] returns the retained summaries; the line it
    prints is the first component. *)
Definition filter_invalid_summaries (combo_summaries : list ComboSummary)
  : string * list ComboSummary :=
  let '(filter_count, valid_combo_summaries) :=
    fold_left filter_step combo_summaries (0, []) in
  ("Filtered " +:+ pretty filter_count +:+ " invalid combinations",
   valid_combo_summaries).

(** The supporters of a book in a summary, none when the book is no key. *)
Definition supporters_of (s : ComboSummary) (book : string)
  : list UserPreference :=
  match dict_get (book_to_user_pref s) book with
  | Ok l => l
  | Raise _ => []
  end.

(** ** The Ranker *)

Definition sort_key (x : ComboSummary) : float * nat :=
  (root_mean_square x, length (books x)).

(** [k1 < k2] on the key tuples: the first components that differ decide. *)
Definition key_lt (k1 k2 : float * nat) : bool :=
  if float_eqb k1.1 k2.1 then k1.2 <? k2.2 else float_ltb k1.1 k2.1.

End summary.

(** [sorted(l, key=key)]: a stable sort that only asks [<] of the keys. Each
    element goes behind every element already placed that is not greater. *)
Section sorted.
Context {A K : Type} (lt : K → K → bool) (key : A → K).

Fixpoint insert_by_key (x : A) (l : list A) : list A :=
  match l with
  | [] => [x]
  | y :: l' =>
      if lt (key x) (key y) then x :: y :: l' else y :: insert_by_key x l'
  end.

Definition sorted (l : list A) : list A :=
  fold_left (λ placed x, insert_by_key x placed) l [].

(** Neither key is less than the other. *)
Definition key_equiv (k1 k2 : K) : bool := negb (lt k1 k2) && negb (lt k2 k1).

(** [x] may stand before [y]: the key of [y] is not less than that of [x]. *)
Definition not_after (x y : A) : Prop := lt (key y) (key x) = false.
End sorted.

(** ** Title Collector and Combination Generator *)

Definition _get_all_book_titles (user_prefs : list UserPreference) : gset string :=
  fold_left (λ books user_pref,
               books ∪ list_to_set (books_by_preference user_pref))
            user_prefs ∅.

(** [itertools.combinations(pool, r)]: the [r]-element subsequences of the
    pool, in the lexicographic order of their positions. *)
Fixpoint combinations {A} (pool : list A) (r : nat) : list (list A) :=
  match pool with
  | [] => match r with 0 => [[]] | S _ => [] end
  | x :: pool' =>
      match r with
      | 0 => [[]]
      | S r' => (cons x <$> combinations pool' r') ++ combinations pool' r
      end
  end.

(** [_combinations_for_all_book_counts]: for [i] from 1 to [len(books)] the
    tuples of [itertools.combinations(books, i)] pass through a [set] and are
    appended in the order in which that set is iterated. *)
Definition _combinations_for_all_book_counts (books : gset string)
  : list (list string) :=
  fold_left (λ book_combinations i,
               book_combinations ++
               elements (list_to_set (combinations (elements books) i)
                         : gset (list string)))
            (seq 1 (size books)) [].

(** ** The pipeline of [run] up to the sorted list *)

Section run.
Context {PF : PyFloat}.

Definition sorted_combo_summaries (valid_combo_summaries : list ComboSummary)
  : list ComboSummary :=
  sorted key_lt sort_key valid_combo_summaries.

(** [run] without the final report: the line printed by the filter and the
    ranked summaries. *)
Definition run (csv_rows : list (list string))
  : result (string * list ComboSummary) :=
  user_prefs ← _load_csv csv_rows;
  let book_titles := _get_all_book_titles user_prefs in
  let book_combos := _combinations_for_all_book_counts book_titles in
  combo_summaries ← generate_combo_summaries user_prefs book_combos;
  let '(printed, valid_combo_summaries) :=
    filter_invalid_summaries combo_summaries in
  mret (printed, sorted_combo_summaries valid_combo_summaries).
End run.

(** The specification's supporters of a book: the records, in input order,
    whose first match in the combo is that book. *)
Definition supporters_in (books : list string) (book : string)
    (user_prefs : list UserPreference) : list UserPreference :=
  filter (λ r, first_match books r = Some book) user_prefs.

(** ** The statistics of the specification, over the real numbers *)

Definition sumR (l : list R) : R := foldr Rplus 0%R l.

(** (Σ rank) / N *)
Definition arithmetic_mean (rs : list Z) : R :=
  (sumR (IZR <$> rs) / INR (length rs))%R.

(** N / (Σ 1/rank) *)
Definition harmonic_mean_of (rs : list Z) : R :=
  (INR (length rs) / sumR ((λ n, 1 / IZR n) <$> rs))%R.

(** sqrt((Σ rank²) / N) *)
Definition quadratic_mean (rs : list Z) : R :=
  sqrt (sumR ((λ n, IZR n * IZR n) <$> rs) / INR (length rs))%R.

(** One pass of lines 63 to 66 with the score already looked up. *)
Definition add_score {PF : PyFloat} (acc : running) (user_score : Z) : running :=
  {| avg_running_sum := avg_running_sum acc + user_score;
     harmonic_running_sum :=
       float_add (harmonic_running_sum acc) (int_truediv 1 user_score);
     squared_running_sum := squared_running_sum acc + user_score ^ 2;
     score_count := score_count acc + 1 |}%Z.

(** ** The order of the Ranker, as the specification words it *)

#[global] Instance R_eq_dec : EqDecision R := Req_dec_T.

(** Non-decreasing in (quadratic mean, then number of books). *)
Definition key_le (k1 k2 : R * nat) : Prop :=
  (k1.1 < k2.1)%R ∨ (k1.1 = k2.1 ∧ k1.2 ≤ k2.2).

(** ** Splitting and trimming, as the specification words them *)

(** [title] is [piece] trimmed of the white space around it: what is left
    of [piece] without a run of white space at its start and one at its end,
    and neither begins nor ends with white space. *)
Definition trimmed_of (piece title : string) : Prop :=
  ∃ pre post,
    piece = pre +:+ title +:+ post
    ∧ Str.all_space pre = true ∧ Str.all_space post = true
    ∧ Str.starts_with_space title = false
    ∧ Str.ends_with_space title = false.

(** ** Sample data used in the examples *)

(** A data row is well formed when it reaches the preference column. *)
Definition well_formed_row (row : list string) : Prop :=
  _BOOK_PREFS_COLUMN_IDX < length row.

Definition sample_row (first last cell : string) : list string :=
  ["2024-01-01"; "mail"; "x"; first; last; "y"; cell]%string.

Definition ann : UserPreference :=
  {| first_name := "Ann"; last_name := "Lee";
     books_by_preference := ["Dune"; "Emma"; "Ulysses"] |}%string.

Definition bob : UserPreference :=
  {| first_name := "Bob"; last_name := "Ray";
     books_by_preference := ["Emma"; "Dune"; "Ulysses"] |}%string.

Definition cat : UserPreference :=
  {| first_name := "Cat"; last_name := "Orr";
     books_by_preference := ["Dune"; "Ulysses"; "Emma"] |}%string.

Definition sample_mapping : dict (list UserPreference) :=
  [("Dune", [ann; cat]); ("Emma", [bob])]%string.

(** ** The report *)

(** [self.first_name + " " + self.last_name[0]]: an empty last name has no
    character at index 0. *)
Definition get_pretty_name (self : UserPreference) : result string :=
  match last_name self with
  | EmptyString => Raise IndexError
  | String c _ => Ok (first_name self +:+ " " +:+ String c EmptyString)
  end.

(** [s[:n]] *)
Fixpoint str_prefix (n : nat) (s : string) : string :=
  match n, s with
  | S n', String c s' => String c (str_prefix n' s')
  | _, _ => EmptyString
  end.

(** [sep.join(l)] *)
Fixpoint join_with (sep : string) (l : list string) : string :=
  match l with
  | [] => EmptyString
  | [t] => t
  | t :: l' => t +:+ sep +:+ join_with sep l'
  end.

(** [s * 2] *)
Definition twice (s : string) : string := s +:+ s.

(** What a printing function has written, line by line, and how it ended. *)
Definition printed : Type := list string * result unit.

Definition print (line : string) : printed := ([line], Ok ()).

Definition print_nothing : printed := ([], Ok ()).

(** [p; q]: the lines of [q] follow those of [p] unless [p] raised. *)
Definition and_then (p q : printed) : printed :=
  match p.2 with
  | Ok _ => (p.1 ++ q.1, q.2)
  | Raise e => (p.1, Raise e)
  end.

(** A [for] loop of printing statements. *)
Fixpoint print_each {A} (body : A → printed) (l : list A) : printed :=
  match l with
  | [] => print_nothing
  | x :: l' => and_then (body x) (print_each body l')
  end.

(** A step that prints nothing but may raise, followed by printing. *)
Definition compute_then {A} (m : result A) (k : A → printed) : printed :=
  match m with
  | Ok a => k a
  | Raise e => ([], Raise e)
  end.

Section report.
Context {PF : PyFloat}.

(** [f"{x:.2f}"], the formatting of a float with two decimals, is left to the
    caller of the model. *)
Variable format_2f : float → string.

Definition max_title_len : nat := 12.

(** The property [title_list]: the conditional expression has the sum on
    its left, so the shortened titles and the dots appear together, when the
    combo has more than [max_title_len] books. *)
Definition title_list (self : ComboSummary) : string :=
  if max_title_len <? length (books self)
  then join_with ", "
         ((λ book, Str.rstrip (str_prefix max_title_len book)) <$> books self)
       +:+ "..."
  else join_with ", " (books self).

(** [f"{user.get_pretty_name()} ({user.get_rank_of_book(book)})"] *)
Definition user_with_book_rank (book : string) (user : UserPreference)
  : result string :=
  name ← get_pretty_name user;
  rank ← get_rank_of_book user book;
  mret (name +:+ " (" +:+ pretty rank +:+ ")").

(** The body of the loop over the books in [print_combo_result]: the lines
    of the users are all built before the first of them is printed. *)
Definition print_book (book_combo : ComboSummary) (prefix : string)
    (book : string) : printed :=
  compute_then (dict_get (book_to_user_pref book_combo) book) (λ users_for_book,
  compute_then (comprehension (user_with_book_rank book) users_for_book)
    (λ users_with_book_rank,
  and_then (print (prefix +:+ book))
           (print_each (λ line, print (twice prefix +:+ line))
                       users_with_book_rank))).

Definition print_combo_result (book_combo : ComboSummary) (prefix : string)
  : printed :=
  and_then (print (prefix +:+ format_2f (root_mean_square book_combo)
                     +:+ " = Root Mean Square Rank"))
  (and_then (print (prefix +:+ format_2f (harmonic_mean book_combo)
                      +:+ " = Geometric Mean Rank"))
  (and_then (print (prefix +:+ format_2f (avg_score book_combo)
                      +:+ " = Arithmetic Mean Rank"))
  (and_then (print "")
            (print_each (print_book book_combo prefix) (books book_combo))))).

(** The body of the loop of [print_results], with the counter of
    [enumerate]. *)
Definition print_ranked (entry : nat * ComboSummary) : printed :=
  and_then (print "")
  (and_then (print ("#" +:+ pretty (entry.1 + 1) +:+ " - "
                      +:+ title_list entry.2))
            (print_combo_result entry.2 "  ")).

Definition print_results (user_prefs : list UserPreference)
    (book_titles : gset string) (book_combos : list (list string))
    (combo_summaries sorted_summaries : list ComboSummary) : printed :=
  and_then (print "Dad's Book Club Book Selection Results")
  (and_then (print "")
  (and_then (print ("Found optimal book selection(s) for "
                      +:+ pretty (length user_prefs) +:+ " people and "
                      +:+ pretty (size book_titles) +:+ " books."))
  (and_then (print ("Considered " +:+ pretty (length book_combos)
                      +:+ " different book combinations of which "
                      +:+ pretty (length combo_summaries)
                      +:+ " had enough people in each group."))
            (print_each print_ranked
               (imap (λ i combo, (i, combo)) (take 3 sorted_summaries)))))).

(** [run] with everything it prints: the line of the filter, then the
    report. An exception of the loader or of the scorer comes before any
    output. *)
Definition run_with_report (csv_rows : list (list string)) : printed :=
  compute_then (_load_csv csv_rows) (λ user_prefs,
  let book_titles := _get_all_book_titles user_prefs in
  let book_combos := _combinations_for_all_book_counts book_titles in
  compute_then (generate_combo_summaries user_prefs book_combos)
    (λ combo_summaries,
  let '(line, valid_combo_summaries) :=
    filter_invalid_summaries combo_summaries in
  and_then (print line)
           (print_results user_prefs book_titles book_combos
              valid_combo_summaries
              (sorted_combo_summaries valid_combo_summaries)))).
End report.

(** ** The statistics in floating point *)

(** The sum of a list of floats as a loop computes it: from 0, adding the
    elements from left to right, each addition rounded. *)
Definition float_sum {PF : PyFloat} (l : list float) : float :=
  fold_left float_add l (float_of_int 0).

(** The three formulas of the specification evaluated in floating point:
    the sums of ranks and of squares are exact ints, the inverses are added
    as floats from left to right, and each quotient and the root are rounded
    once. *)
Definition float_arithmetic_mean {PF : PyFloat} (rs : list Z) : float :=
  int_truediv (sumZ rs) (Z.of_nat (length rs)).

Definition float_harmonic_mean {PF : PyFloat} (rs : list Z) : float :=
  float_div (float_of_int (Z.of_nat (length rs)))
            (float_sum (int_truediv 1 <$> rs)).

Definition float_quadratic_mean {PF : PyFloat} (rs : list Z) : float :=
  float_pow_half
    (int_truediv (sumZ ((λ n, n ^ 2)%Z <$> rs)) (Z.of_nat (length rs))).

(** The summary that holds these three values. *)
Definition float_summary {PF : PyFloat} (combo : list string)
    (d : dict (list UserPreference)) : ComboSummary :=
  {| books := combo;
     book_to_user_pref := d;
     avg_score := float_arithmetic_mean (ranks d);
     harmonic_mean := float_harmonic_mean (ranks d);
     root_mean_square := float_quadratic_mean (ranks d) |}.

(** A mapping with the ranks 3, 2 and 1. *)
Definition mixed_mapping : dict (list UserPreference) :=
  [("Ulysses", [ann]); ("Emma", [cat; bob])]%string.

Definition dan : UserPreference :=
  {| first_name := "Dan"; last_name := "Fox";
     books_by_preference := ["Emma"; "Hamlet"; "Ulysses"] |}%string.

(** Five participants who rank "Ulysses" third. *)
Definition five_thirds : list UserPreference := [ann; bob; ann; bob; dan].

(** * Properties *)

(** ** The error monad *)

Lemma bind_Ok {A B} (m : result A) (f : A → result B) (b : B) :
  m ≫= f = Ok b ↔ ∃ a, m = Ok a ∧ f a = Ok b.
Proof.
  destruct m as [a|e]; simpl.
  - split; [eauto | by intros (a' & [= ->] & ?)].
  - split; [done | by intros (a' & ? & _)].
Qed.

Lemma filter_none {A} (P : A → Prop) `{∀ x, Decision (P x)} (l : list A) :
  (∀ x, x ∈ l → ¬ P x) → filter P l = [].
Proof.
  intros Hnone. destruct (filter P l) as [|x l'] eqn:Hf; [done|].
  assert (x ∈ filter P l) as [HP Hx]%list_elem_of_filter by (rewrite Hf; left).
  by destruct (Hnone x Hx).
Qed.

Lemma filter_iff_elem_of {A} (P Q : A → Prop)
    `{∀ x, Decision (P x)} `{∀ x, Decision (Q x)} (l : list A) :
  (∀ x, x ∈ l → P x ↔ Q x) → filter P l = filter Q l.
Proof.
  induction l as [|x l IH]; intros Hiff; [done|].
  rewrite !filter_cons, IH by (intros y Hy; apply Hiff; by right).
  destruct (decide (P x)) as [HP|HP], (decide (Q x)) as [HQ|HQ]; try done.
  - destruct HQ. by apply (Hiff x); [left|].
  - destruct HP. by apply (Hiff x); [left|].
Qed.

Lemma subscript_Ok {A} (l : list A) (i : nat) (x : A) :
  subscript l i = Ok x ↔ l !! i = Some x.
Proof. unfold subscript. destruct (l !! i); split; congruence. Qed.

Lemma subscript_lt {A} (l : list A) (i : nat) :
  i < length l → ∃ x, subscript l i = Ok x ∧ l !! i = Some x.
Proof.
  intros [x Hx]%lookup_lt_is_Some_2. exists x.
  by rewrite subscript_Ok.
Qed.

Lemma comprehension_Ok {A B} (f : A → result B) (l : list A) (g : A → B) :
  Forall (λ x, f x = Ok (g x)) l → comprehension f l = Ok (g <$> l).
Proof.
  induction 1 as [|x l Hx _ IH]; [done|].
  simpl. rewrite Hx. simpl. by rewrite IH.
Qed.

Lemma comprehension_inv {A B} (f : A → result B) (l : list A) (l' : list B) :
  comprehension f l = Ok l' → Forall2 (λ x y, f x = Ok y) l l'.
Proof.
  revert l'. induction l as [|x l IH]; intros l'; simpl.
  - intros [= <-]. constructor.
  - intros (y & Hy & (ys & Hys & [= <-])%bind_Ok)%bind_Ok.
    constructor; auto.
Qed.

(** ** Splitting and trimming *)

Module StrFacts.
Import Str.

Lemma split_nonempty s : split s ≠ [].
Proof.
  destruct s as [|c s]; simpl; [done|].
  destruct (Ascii.eqb c comma); [done|]. by destruct (split s).
Qed.

(** There is one piece more than there are commas. *)
Lemma split_length s : length (split s) = S (count_commas s).
Proof.
  induction s as [|c s IH]; simpl; [done|].
  destruct (Ascii.eqb c comma); simpl; [by rewrite IH|].
  destruct (split s); simpl in *; done.
Qed.

(** Joining the pieces with commas gives the string back. *)
Lemma join_split s : join (split s) = s.
Proof.
  induction s as [|c s IH]; simpl; [done|].
  destruct (Ascii.eqb_spec c comma) as [->|Hc].
  - pose proof (split_nonempty s) as Hne.
    destruct (split s) as [|t ts]; [done|].
    simpl in *. by rewrite IH.
  - pose proof (split_nonempty s) as Hne.
    destruct (split s) as [|t ts]; [done|].
    destruct ts as [|t' ts]; simpl in *; by rewrite <-IH.
Qed.

(** No piece holds a comma. *)
Lemma split_no_comma s : Forall (λ t, count_commas t = 0) (split s).
Proof.
  induction s as [|c s IH]; simpl; [by repeat constructor|].
  destruct (Ascii.eqb c comma) eqn:Hc; [by constructor|].
  destruct (split s) as [|t ts]; [repeat constructor; simpl; by rewrite Hc|].
  inversion_clear IH as [|?? Ht Hts]. constructor; [|done].
  simpl. by rewrite Hc, Ht.
Qed.

Lemma append_String c s t : String c s +:+ t = String c (s +:+ t).
Proof. reflexivity. Qed.

Lemma append_Empty t : EmptyString +:+ t = t.
Proof. reflexivity. Qed.

Lemma lstrip_spec s :
  ∃ pre, s = pre +:+ lstrip s ∧ all_space pre = true
         ∧ starts_with_space (lstrip s) = false.
Proof.
  induction s as [|c s (pre & Heq & Hpre & Hst)]; simpl.
  - by exists EmptyString.
  - destruct (isspace c) eqn:Hc.
    + exists (String c pre). simpl. rewrite Hc, Hpre, append_String.
      split; [congruence|done].
    + exists EmptyString. simpl. by rewrite Hc.
Qed.

Lemma rstrip_spec s :
  ∃ post, s = rstrip s +:+ post ∧ all_space post = true
          ∧ ends_with_space (rstrip s) = false.
Proof.
  induction s as [|c s (post & Heq & Hpost & Hend)]; simpl.
  - by exists EmptyString.
  - destruct (rstrip s) as [|c' t] eqn:Hr.
    + destruct (isspace c) eqn:Hc.
      * exists (String c post). rewrite append_Empty in *. simpl.
        rewrite Hc, Hpost. split; [congruence|done].
      * exists post. rewrite append_String, append_Empty in *. simpl.
        rewrite Hc. split; [congruence|done].
    + exists post. rewrite !append_String in *. simpl in *.
      split; [congruence|]. split; [done|]. by destruct t.
Qed.

Lemma rstrip_starts s :
  starts_with_space s = false → starts_with_space (rstrip s) = false.
Proof.
  destruct s as [|c s]; simpl; [done|]. intros Hc.
  destruct (rstrip s); simpl; by rewrite ?Hc.
Qed.

(** [strip] removes a run of white space at each end and nothing else, and
    what is left neither starts nor ends with white space. *)
Lemma strip_spec s :
  ∃ pre post, s = pre +:+ strip s +:+ post
              ∧ all_space pre = true ∧ all_space post = true
              ∧ starts_with_space (strip s) = false
              ∧ ends_with_space (strip s) = false.
Proof.
  destruct (lstrip_spec s) as (pre & Heq & Hpre & Hst).
  destruct (rstrip_spec (lstrip s)) as (post & Heq' & Hpost & Hend).
  exists pre, post. unfold strip. rewrite <-Heq', <-Heq.
  repeat split; auto using rstrip_starts.
Qed.
End StrFacts.

(** ** Rank lookup *)

Lemma position_of_Some book books i :
  position_of book books = Some i ↔
  books !! i = Some book ∧ ∀ j, j < i → books !! j ≠ Some book.
Proof.
  unfold position_of. split.
  - destruct (list_find _ books) as [[i' x]|] eqn:Hfind; [|done].
    intros [= <-]. apply list_find_Some in Hfind as (Hi & -> & Hlt).
    split; [done|]. intros j Hj Hjb. by eapply Hlt.
  - intros [Hi Hlt]. erewrite (proj2 (list_find_Some _ books i book)); [done|].
    split_and!; [done..|]. intros j y Hj Hji ->. by eapply Hlt.
Qed.

Lemma position_of_None book books :
  position_of book books = None ↔ book ∉ books.
Proof.
  unfold position_of. rewrite fmap_None, list_find_None, Forall_forall.
  split; [intros H Hin; by eapply H | intros H x Hx ->; done].
Qed.

Lemma position_of_lt book books i :
  position_of book books = Some i → i < length books.
Proof. intros [Hi _]%position_of_Some. by eapply lookup_lt_Some. Qed.

(** The loop returns the counter it started with plus the position of the
    first occurrence plus one, and raises when there is no occurrence. *)
Lemma get_rank_from_position book books rank :
  get_rank_from rank books book =
  match position_of book books with
  | Some i => Ok (rank + Z.of_nat i + 1)%Z
  | None => Raise ValueError
  end.
Proof.
  revert rank. induction books as [|b books IH]; intros rank; [done|].
  unfold position_of in *. simpl. destruct (decide (b = book)); simpl.
  - f_equal. lia.
  - rewrite IH. destruct (list_find _ books) as [[i x]|]; simpl; [|done].
    f_equal. lia.
Qed.

Lemma get_rank_of_book_rank_of r book :
  book ∈ books_by_preference r →
  get_rank_of_book r book = Ok (rank_of r book) ∧ (1 ≤ rank_of r book)%Z.
Proof.
  intros Hin. unfold get_rank_of_book, rank_of.
  rewrite get_rank_from_position.
  destruct (position_of _ _) as [i|] eqn:Hpos.
  - split; [f_equal|]; lia.
  - by apply position_of_None in Hpos.
Qed.

Lemma get_rank_of_book_Ok r book n :
  get_rank_of_book r book = Ok n → book ∈ books_by_preference r.
Proof.
  unfold get_rank_of_book. rewrite get_rank_from_position.
  destruct (position_of _ _) as [i|] eqn:Hpos; [|done].
  intros _. apply position_of_Some in Hpos as [Hi _].
  by eapply list_elem_of_lookup_2.
Qed.

(** C6: in a record whose list has no duplicate titles, the rank lookup of
    the book at index [i] (counted from 0) returns [i + 1], the 1-based index;
    the lookup of a book that is not in the list raises [ValueError]. *)
Theorem get_rank_of_book_correct (r : UserPreference) :
  NoDup (books_by_preference r) →
  (∀ i b, books_by_preference r !! i = Some b →
          get_rank_of_book r b = Ok (Z.of_nat i + 1)%Z)
  ∧ (∀ b, b ∉ books_by_preference r →
          get_rank_of_book r b = Raise ValueError).
Proof.
  intros Hnd. unfold get_rank_of_book. split.
  - intros i b Hi. rewrite get_rank_from_position.
    rewrite (proj2 (position_of_Some b _ i)); [f_equal; lia|].
    split; [done|]. intros j Hj Hjb.
    pose proof (NoDup_lookup _ _ _ _ Hnd Hi Hjb). lia.
  - intros b Hb. rewrite get_rank_from_position.
    by rewrite (proj2 (position_of_None b _)).
Qed.

Lemma get_rank_of_book_correct_witness :
  get_rank_of_book ann "Ulysses" = Ok 3%Z
  ∧ get_rank_of_book ann "Hamlet" = Raise ValueError.
Proof.
  assert (NoDup (books_by_preference ann)) as Hnd
    by compute_done.
  destruct (get_rank_of_book_correct ann Hnd) as [Hin Hout].
  split.
  - apply (Hin 2 "Ulysses"%string). reflexivity.
  - apply Hout. compute_done.
Defined.

(** ** The Loader *)

Lemma from_csv_row_Ok row up :
  from_csv_row row = Ok up ↔
  ∃ cell, row !! _BOOK_PREFS_COLUMN_IDX = Some cell
          ∧ row !! _FIRST_NAME_COLUMN_IDX = Some (first_name up)
          ∧ row !! _LAST_NAME_COLUMN_IDX = Some (last_name up)
          ∧ books_by_preference up = Str.strip <$> Str.split cell.
Proof.
  unfold from_csv_row. split.
  - intros (cell & Hc%subscript_Ok & (f & Hf%subscript_Ok &
      (l & Hl%subscript_Ok & [= <-])%bind_Ok)%bind_Ok)%bind_Ok.
    by exists cell.
  - intros (cell & Hc%subscript_Ok & Hf%subscript_Ok & Hl%subscript_Ok & Hb).
    rewrite Hc. simpl. rewrite Hf. simpl. rewrite Hl. simpl.
    destruct up; simpl in *. by rewrite Hb.
Qed.

Lemma from_csv_row_well_formed row :
  well_formed_row row → ∃ up, from_csv_row row = Ok up.
Proof.
  unfold well_formed_row, _BOOK_PREFS_COLUMN_IDX. intros Hlen.
  destruct (subscript_lt row _BOOK_PREFS_COLUMN_IDX) as (cell & _ & Hc);
    [unfold _BOOK_PREFS_COLUMN_IDX; lia|].
  destruct (subscript_lt row _FIRST_NAME_COLUMN_IDX) as (f & _ & Hf);
    [unfold _FIRST_NAME_COLUMN_IDX; lia|].
  destruct (subscript_lt row _LAST_NAME_COLUMN_IDX) as (l & _ & Hl);
    [unfold _LAST_NAME_COLUMN_IDX; lia|].
  eexists {| first_name := f; last_name := l; books_by_preference := _ |}.
  apply from_csv_row_Ok. exists cell. by split_and!.
Qed.

(** C8: on a header followed by well-formed data rows the Loader returns as
    many records as there are data rows, and the [i]-th record comes from the
    [i]-th row: its names are the cells of columns 3 and 4, and its
    preference list is, piece by piece and in order, the preference cell
    split on commas with every piece trimmed of the white space around it.
    The pieces hold no comma, give the cell back when joined with commas, and
    the empty ones are kept, so the list has one title per piece: one more
    than the cell has commas. *)
Theorem load_csv_well_formed (header : list string) (rows : list (list string)) :
  Forall well_formed_row rows →
  ∃ user_prefs,
    _load_csv (header :: rows) = Ok user_prefs
    ∧ length user_prefs = length rows
    ∧ ∀ i row, rows !! i = Some row →
        ∃ up cell pieces,
          user_prefs !! i = Some up
          ∧ row !! _BOOK_PREFS_COLUMN_IDX = Some cell
          ∧ Str.join pieces = cell
          ∧ Forall (λ t, Str.count_commas t = 0) pieces
          ∧ length pieces = S (Str.count_commas cell)
          ∧ Forall2 trimmed_of pieces (books_by_preference up)
          ∧ length (books_by_preference up) = S (Str.count_commas cell)
          ∧ row !! _FIRST_NAME_COLUMN_IDX = Some (first_name up)
          ∧ row !! _LAST_NAME_COLUMN_IDX = Some (last_name up).
Proof.
  intros Hwf. simpl.
  assert (∃ user_prefs, comprehension from_csv_row rows = Ok user_prefs)
    as [user_prefs Hload].
  { induction Hwf as [|row rows Hrow _ [ups Hups]]; [by eexists|].
    destruct (from_csv_row_well_formed row Hrow) as [up Hup].
    exists (up :: ups). simpl. rewrite Hup. simpl. by rewrite Hups. }
  exists user_prefs. split; [done|].
  apply comprehension_inv in Hload.
  split; [symmetry; by eapply Forall2_length|].
  intros i row Hi.
  destruct (Forall2_lookup_l _ _ _ _ _ Hload Hi) as (up & Hup & Hrow).
  apply from_csv_row_Ok in Hrow as (cell & Hc & Hf & Hl & Hb).
  exists up, cell, (Str.split cell). split_and!; try done.
  - apply StrFacts.join_split.
  - apply StrFacts.split_no_comma.
  - apply StrFacts.split_length.
  - rewrite Hb. apply Forall2_fmap_r, Forall_Forall2_diag, Forall_forall.
    intros piece _. apply StrFacts.strip_spec.
  - by rewrite Hb, length_fmap, StrFacts.split_length.
Qed.

Lemma load_csv_well_formed_witness :
  ∃ user_prefs,
    _load_csv [ sample_row "First" "Last" "Books";
                sample_row "Ann" "Lee" "Dune , Emma,, Ulysses ";
                sample_row "Bob" "Ray" "" ] = Ok user_prefs
    ∧ length user_prefs = 2.
Proof.
  destruct (load_csv_well_formed (sample_row "First" "Last" "Books")
              [ sample_row "Ann" "Lee" "Dune , Emma,, Ulysses ";
                sample_row "Bob" "Ray" "" ]) as (ups & Hload & Hlen & _).
  - repeat constructor; unfold well_formed_row; vm_compute; lia.
  - exists ups. split; [exact Hload | exact Hlen].
Defined.

(** C9, as stated, fails: a cell that names a title twice gives a list with
    the title twice. *)
Lemma from_csv_row_duplicates :
  from_csv_row (sample_row "Ann" "Lee" "Dune, Emma, Dune")
  = Ok {| first_name := "Ann"; last_name := "Lee";
          books_by_preference := ["Dune"; "Emma"; "Dune"] |}
  ∧ ¬ NoDup ["Dune"; "Emma"; "Dune"]%string.
Proof.
  split; [reflexivity|].
  intros Hnd. apply NoDup_cons in Hnd as [Hnotin _].
  apply Hnotin. set_solver.
Qed.

(** C9, amended: the list of a loaded record is the list of trimmed pieces of
    the cell, nothing is removed, so it is free of duplicates exactly when no
    two pieces of the cell agree after trimming. *)
Theorem from_csv_row_NoDup (row : list string) (up : UserPreference) (cell : string) :
  from_csv_row row = Ok up →
  row !! _BOOK_PREFS_COLUMN_IDX = Some cell →
  length (books_by_preference up) = length (Str.split cell)
  ∧ (NoDup (books_by_preference up) ↔
     ∀ i j s t, Str.split cell !! i = Some s → Str.split cell !! j = Some t →
                Str.strip s = Str.strip t → i = j).
Proof.
  intros (cell' & Hc & _ & _ & Hb)%from_csv_row_Ok Hcell.
  assert (cell' = cell) as -> by congruence.
  rewrite Hb, length_fmap. split; [done|].
  rewrite NoDup_alt. split.
  - intros Hnd i j s t Hi Hj Hst. apply (Hnd i j (Str.strip s)).
    + by rewrite list_lookup_fmap, Hi.
    + by rewrite list_lookup_fmap, Hj, Hst.
  - intros Hinj i j x. rewrite !list_lookup_fmap.
    destruct (Str.split cell !! i) as [s|] eqn:Hi; [|done].
    destruct (Str.split cell !! j) as [t|] eqn:Hj; [|done].
    simpl. intros [= <-] [= Hst]. by eapply Hinj.
Qed.

Lemma from_csv_row_NoDup_witness :
  NoDup ["Dune"; "Emma"; ""]%string.
Proof.
  pose proof (from_csv_row_NoDup
    (sample_row "Ann" "Lee" " Dune,Emma , ")
    {| first_name := "Ann"; last_name := "Lee";
       books_by_preference := ["Dune"; "Emma"; ""] |}
    " Dune,Emma , " eq_refl eq_refl) as [_ Hiff].
  apply Hiff. intros i j s t Hi Hj Hst.
  destruct i as [|[|[|i]]]; destruct j as [|[|[|j]]];
    simpl in Hi, Hj; try discriminate; try reflexivity;
    injection Hi as <-; injection Hj as <-; vm_compute in Hst; discriminate.
Defined.

(** ** Dictionaries *)

Section dict_facts.
Context {V : Type}.
Implicit Types (d : dict V) (k : string) (v : V).

Lemma dict_get_set_eq d k v : dict_get (dict_set d k v) k = Ok v.
Proof.
  induction d as [|[k' v'] d IH]; csimpl.
  - by rewrite decide_True.
  - destruct (decide (k' = k)) as [->|Hne]; csimpl.
    + by rewrite decide_True.
    + by rewrite decide_False.
Qed.

Lemma dict_get_set_ne d k k' v :
  k ≠ k' → dict_get (dict_set d k v) k' = dict_get d k'.
Proof.
  intros Hne. induction d as [|[k0 v0] d IH]; csimpl.
  - by rewrite decide_False.
  - destruct (decide (k0 = k)) as [->|Hne0]; csimpl.
    + by rewrite !decide_False.
    + by rewrite IH.
Qed.

Lemma dict_get_Ok d k v : dict_get d k = Ok v → (k, v) ∈ d.
Proof.
  induction d as [|[k' v'] d IH]; csimpl; [done|].
  destruct (decide (k' = k)) as [->|Hne].
  - intros [= ->]. left.
  - intros Hget. right. auto.
Qed.

Lemma dict_get_is_Ok d k : k ∈ dict_keys d → is_Ok (dict_get d k).
Proof.
  unfold dict_keys, is_Ok. induction d as [|[k' v'] d IH]; csimpl.
  - by intros ?%elem_of_nil.
  - destruct (decide (k' = k)) as [->|Hne]; [by eexists|].
    intros [?|?]%elem_of_cons; [congruence | auto].
Qed.

Lemma dict_get_NoDup d k v :
  NoDup (dict_keys d) → (k, v) ∈ d → dict_get d k = Ok v.
Proof.
  unfold dict_keys. induction d as [|[k' v'] d IH]; csimpl.
  - by intros _ ?%elem_of_nil.
  - intros [Hnotin Hnd]%NoDup_cons [[= -> ->]|Hin]%elem_of_cons.
    + by rewrite decide_True.
    + rewrite decide_False; [auto|]. intros ->. apply Hnotin.
      apply list_elem_of_fmap. by exists (k, v).
Qed.

Lemma dict_keys_set_in d k v :
  k ∈ dict_keys d → dict_keys (dict_set d k v) = dict_keys d.
Proof.
  unfold dict_keys. induction d as [|[k' v'] d IH]; csimpl.
  - by intros ?%elem_of_nil.
  - destruct (decide (k' = k)) as [->|Hne]; csimpl; [done|].
    intros [?|?]%elem_of_cons; [congruence|]. by rewrite IH.
Qed.

Lemma dict_keys_set_notin d k v :
  k ∉ dict_keys d → dict_keys (dict_set d k v) = dict_keys d ++ [k].
Proof.
  unfold dict_keys. induction d as [|[k' v'] d IH]; csimpl; [done|].
  intros [Hne Hnotin]%not_elem_of_cons.
  rewrite decide_False by done. csimpl. by rewrite IH.
Qed.
End dict_facts.

(** ** The Combo Scorer *)

Lemma empty_supporters_spec books :
  let d := empty_supporters books in
  NoDup (dict_keys d)
  ∧ (∀ b, b ∈ dict_keys d ↔ b ∈ books)
  ∧ (∀ b l, (b, l) ∈ d → l = [])
  ∧ (NoDup books → dict_keys d = books).
Proof.
  unfold empty_supporters.
  cut (∀ d0 : dict (list UserPreference),
         NoDup (dict_keys d0) → (∀ b l, (b, l) ∈ d0 → l = []) →
         let d := fold_left (λ d book, dict_set d book []) books d0 in
         NoDup (dict_keys d)
         ∧ (∀ b, b ∈ dict_keys d ↔ b ∈ dict_keys d0 ∨ b ∈ books)
         ∧ (∀ b l, (b, l) ∈ d → l = [])
         ∧ (NoDup (dict_keys d0 ++ books) → dict_keys d = dict_keys d0 ++ books)).
  { intros Hcut. destruct (Hcut [] (NoDup_nil_2) ltac:(by intros ?? ?%elem_of_nil))
      as (Hnd & Hkeys & Hvals & Heq).
    split_and!; [done| |done|done].
    intros b. rewrite Hkeys. unfold dict_keys. csimpl. set_solver. }
  induction books as [|book books IH]; intros d0 Hnd Hvals; csimpl.
  - split_and!; [done| |done|by rewrite app_nil_r]. set_solver.
  - assert (∀ b l, (b, l) ∈ dict_set d0 book [] → l = []) as Hvals'.
    { intros b l Hin. destruct (decide (book = b)) as [->|Hne].
      - assert (dict_get (dict_set d0 b []) b = Ok l) as Hget.
        { apply dict_get_NoDup; [|done].
          destruct (decide (b ∈ dict_keys d0)).
          - by rewrite dict_keys_set_in.
          - rewrite dict_keys_set_notin by done.
            apply NoDup_app. split_and!; [done|set_solver|apply NoDup_singleton]. }
        rewrite dict_get_set_eq in Hget. congruence.
      - clear IH Hnd. induction d0 as [|[k0 v0] d0 IHd]; csimpl in *.
        + apply list_elem_of_singleton in Hin. congruence.
        + destruct (decide (k0 = book)) as [->|Hne0].
          * apply elem_of_cons in Hin as [[= -> ->]|Hin]; [done|].
            eapply Hvals. by right.
          * apply elem_of_cons in Hin as [[= -> ->]|Hin].
            -- eapply Hvals. by left.
            -- apply IHd; [|done]. intros ???. eapply Hvals. by right. }
    destruct (decide (book ∈ dict_keys d0)) as [Hin|Hnotin].
    + destruct (IH (dict_set d0 book [])) as (Hnd' & Hkeys & Hv & Heq);
        [by rewrite dict_keys_set_in|done|].
      rewrite dict_keys_set_in in Hkeys, Heq by done.
      split_and!; [done| |done|].
      * intros b. rewrite Hkeys. set_solver.
      * intros Hnd0. apply NoDup_app in Hnd0 as (_ & Hdisj & _).
        exfalso. eapply Hdisj; [done|]. by left.
    + destruct (IH (dict_set d0 book [])) as (Hnd' & Hkeys & Hv & Heq).
      { rewrite dict_keys_set_notin by done.
        apply NoDup_app. split_and!; [done|set_solver|apply NoDup_singleton]. }
      { done. }
      rewrite dict_keys_set_notin in Hkeys, Heq by done.
      split_and!; [done| |done|].
      * intros b. rewrite Hkeys. set_solver.
      * intros Hnd0. rewrite Heq; [by rewrite <-app_assoc|].
        by rewrite <-app_assoc.
Qed.

Lemma first_match_Some books r b :
  first_match books r = Some b ↔
  ∃ i, books_by_preference r !! i = Some b ∧ b ∈ books
       ∧ ∀ j y, books_by_preference r !! j = Some y → j < i → y ∉ books.
Proof.
  unfold first_match. split.
  - destruct (list_find _ _) as [[i x]|] eqn:Hfind; [|done].
    intros [= <-]. apply list_find_Some in Hfind. by exists i.
  - intros (i & Hi & Hb & Hlt).
    by rewrite (proj2 (list_find_Some (λ b, b ∈ books) _ i b)).
Qed.

Lemma first_match_None books r :
  first_match books r = None ↔ ∀ y, y ∈ books_by_preference r → y ∉ books.
Proof.
  unfold first_match. by rewrite fmap_None, list_find_None, Forall_forall.
Qed.

(** One record's scan either leaves the mapping alone (no preferred book is
    in the combo) or appends the record to the list of its first match. *)
Lemma scan_preferences_spec books up prefs d :
  scan_preferences books up prefs d =
  match snd <$> list_find (λ b, b ∈ books) prefs with
  | Some b => supporters ← dict_get d b;
              Ok (dict_set d b (supporters ++ [up]))
  | None => Ok d
  end.
Proof.
  induction prefs as [|p prefs IH]; csimpl; [done|].
  destruct (decide (p ∈ books)); csimpl; [done|].
  rewrite IH. by destruct (list_find _ prefs) as [[i x]|].
Qed.

Lemma pairs_cons b l (d : dict (list UserPreference)) :
  pairs ((b, l) :: d) = ((λ r, (b, r)) <$> l) ++ pairs d.
Proof. done. Qed.

Lemma elem_of_pairs (d : dict (list UserPreference)) b r :
  (b, r) ∈ pairs d ↔ ∃ l, (b, l) ∈ d ∧ r ∈ l.
Proof.
  unfold pairs. rewrite list_elem_of_bind. split.
  - intros ([b' l] & Hin & Hd). apply list_elem_of_fmap in Hin as (r' & [= -> ->] & Hr).
    by exists l.
  - intros (l & Hd & Hr). exists (b, l). split; [|done].
    apply list_elem_of_fmap. by exists r.
Qed.

Lemma pairs_set_append (d : dict (list UserPreference)) b l r :
  dict_get d b = Ok l →
  length (pairs (dict_set d b (l ++ [r]))) = S (length (pairs d)).
Proof.
  induction d as [|[k v] d IH]; csimpl; [done|].
  destruct (decide (k = b)) as [->|Hne].
  - intros [= ->]. rewrite !pairs_cons, !length_app, !length_fmap, length_app.
    simpl. lia.
  - intros Hget. rewrite !pairs_cons, !length_app, IH by done. lia.
Qed.

Lemma supporters_in_snoc books b seen r :
  supporters_in books b (seen ++ [r]) =
  supporters_in books b seen ++
    (if decide (first_match books r = Some b) then [r] else []).
Proof.
  unfold supporters_in. by rewrite filter_app.
Qed.

(** The loop over the records keeps the keys and files every record under
    its first match. *)
Lemma assign_loop books rest :
  ∀ (d : dict (list UserPreference)) seen,
    (∀ b, b ∈ dict_keys d ↔ b ∈ books) →
    (∀ b, b ∈ books → dict_get d b = Ok (supporters_in books b seen)) →
    length (pairs d)
      = length (filter (λ r, is_Some (first_match books r)) seen) →
    ∃ d',
      foldM (λ d user_pref,
               scan_preferences books user_pref
                 (books_by_preference user_pref) d) rest d = Ok d'
      ∧ dict_keys d' = dict_keys d
      ∧ (∀ b, b ∈ books →
              dict_get d' b = Ok (supporters_in books b (seen ++ rest)))
      ∧ length (pairs d')
          = length (filter (λ r, is_Some (first_match books r)) (seen ++ rest)).
Proof.
  induction rest as [|up rest IH]; intros d seen Hkeys Hget Hlen.
  - exists d. by rewrite app_nil_r.
  - cbn [foldM]. rewrite scan_preferences_spec.
    change (snd <$> list_find _ _) with (first_match books up).
    destruct (first_match books up) as [b|] eqn:Hfm.
    + assert (b ∈ books) as Hb.
      { apply first_match_Some in Hfm as (i & _ & Hb & _). done. }
      rewrite (Hget b Hb). csimpl.
      destruct (IH (dict_set d b (supporters_in books b seen ++ [up]))
                  (seen ++ [up])) as (d' & Hfold & Hkeys' & Hget' & Hlen').
      * intros b'. rewrite dict_keys_set_in; [done|]. by apply Hkeys.
      * intros b' Hb'. rewrite supporters_in_snoc.
        destruct (decide (b = b')) as [<-|Hne].
        -- rewrite dict_get_set_eq. by rewrite decide_True.
        -- rewrite dict_get_set_ne by done. rewrite (Hget b' Hb').
           rewrite decide_False, app_nil_r; [done|congruence].
      * rewrite pairs_set_append by auto.
        rewrite filter_app, length_app, filter_cons, filter_nil.
        rewrite decide_True by (rewrite Hfm; eauto). simpl. lia.
      * exists d'. rewrite <-app_assoc in Hget', Hlen'.
        split_and!; try done.
        rewrite Hkeys'. apply dict_keys_set_in. by apply Hkeys.
    + csimpl. destruct (IH d (seen ++ [up])) as (d' & Hfold & Hkeys' & Hget' & Hlen').
      * done.
      * intros b' Hb'. rewrite supporters_in_snoc, (Hget b' Hb').
        rewrite decide_False, app_nil_r; [done|congruence].
      * rewrite filter_app, length_app, filter_cons, filter_nil.
        rewrite decide_False by (rewrite Hfm; by intros [??]). simpl. lia.
      * exists d'. rewrite <-app_assoc in Hget', Hlen'. done.
Qed.

Lemma pairs_empty_supporters books : pairs (empty_supporters books) = [].
Proof.
  destruct (empty_supporters_spec books) as (_ & _ & Hvals & _).
  induction (empty_supporters books) as [|[b l] d IH]; [done|].
  rewrite pairs_cons, IH.
  - rewrite (Hvals b l); [done|by left].
  - intros b' l' Hin. eapply Hvals. by right.
Qed.

(** What lines 77 to 82 build, in full. *)
Lemma assign_supporters_spec books user_prefs :
  ∃ d, assign_supporters books user_prefs = Ok d
    ∧ NoDup (dict_keys d)
    ∧ (∀ b, b ∈ dict_keys d ↔ b ∈ books)
    ∧ (NoDup books → dict_keys d = books)
    ∧ (∀ b, b ∈ books → dict_get d b = Ok (supporters_in books b user_prefs))
    ∧ length (pairs d)
        = length (filter (λ r, is_Some (first_match books r)) user_prefs).
Proof.
  destruct (empty_supporters_spec books) as (Hnd & Hkeys & Hvals & Heq).
  destruct (assign_loop books user_prefs (empty_supporters books) [])
    as (d & Hfold & Hkeys' & Hget & Hlen).
  - done.
  - intros b Hb. apply Hkeys in Hb.
    destruct (dict_get_is_Ok _ _ Hb) as [l Hl]. rewrite Hl.
    apply dict_get_Ok in Hl. by rewrite (Hvals b l).
  - by rewrite pairs_empty_supporters.
  - exists d. rewrite Hkeys'. by split_and!.
Qed.

Lemma assign_supporters_entries books user_prefs d b l :
  assign_supporters books user_prefs = Ok d →
  (b, l) ∈ d → b ∈ books ∧ l = supporters_in books b user_prefs.
Proof.
  intros Hd Hin.
  destruct (assign_supporters_spec books user_prefs)
    as (d' & Hd' & Hnd & Hkeys & _ & Hget & _).
  assert (d' = d) as -> by congruence.
  assert (b ∈ books) as Hb.
  { apply Hkeys. apply list_elem_of_fmap. by exists (b, l). }
  split; [done|].
  apply (dict_get_NoDup _ _ _ Hnd) in Hin. rewrite (Hget b Hb) in Hin.
  congruence.
Qed.

Lemma from_books_and_user_prefs_mapping {PF : PyFloat} combo user_prefs s :
  from_books_and_user_prefs combo user_prefs = Ok s →
  books s = combo
  ∧ assign_supporters combo user_prefs = Ok (book_to_user_pref s).
Proof.
  unfold from_books_and_user_prefs, __post_init__.
  intros (d & Hd & (acc & _ & (avg & _ & (hm & _ & (ms & _ & [= <-])%bind_Ok)
    %bind_Ok)%bind_Ok)%bind_Ok)%bind_Ok.
  done.
Qed.


(** ** The statistics *)

Lemma ranks_cons b l (d : dict (list UserPreference)) :
  ranks ((b, l) :: d) = ((λ r, rank_of r b) <$> l) ++ ranks d.
Proof.
  unfold ranks. rewrite pairs_cons, fmap_app. f_equal.
  rewrite <-list_fmap_compose. done.
Qed.

Lemma length_ranks d : length (ranks d) = length (pairs d).
Proof. unfold ranks. by rewrite length_fmap. Qed.

Lemma ranks_positive d :
  (∀ b r, (b, r) ∈ pairs d → b ∈ books_by_preference r) →
  Forall (λ n, 1 ≤ n)%Z (ranks d).
Proof.
  intros Hin. unfold ranks. apply Forall_fmap, Forall_forall.
  intros [b r] Hbr. simpl. by apply get_rank_of_book_rank_of, Hin.
Qed.

Section statistics.
Context {PF : PyFloat}.

Lemma score_user_Ok book acc r :
  book ∈ books_by_preference r →
  score_user book acc r = Ok (add_score acc (rank_of r book)).
Proof.
  intros Hin. unfold score_user.
  destruct (get_rank_of_book_rank_of r book Hin) as [-> Hpos]. csimpl.
  unfold py_int_truediv. rewrite decide_False by lia. done.
Qed.

Lemma score_user_inv book acc r acc' :
  score_user book acc r = Ok acc' → book ∈ books_by_preference r.
Proof.
  unfold score_user. intros (n & Hn & _)%bind_Ok.
  by eapply get_rank_of_book_Ok.
Qed.

Lemma score_book_Ok b l acc :
  (∀ r, r ∈ l → b ∈ books_by_preference r) →
  score_book acc (b, l) = Ok (fold_left add_score ((λ r, rank_of r b) <$> l) acc).
Proof.
  unfold score_book. simpl. revert acc.
  induction l as [|r l IH]; intros acc Hin; [done|].
  cbn [foldM]. rewrite score_user_Ok by (apply Hin; left). csimpl.
  apply IH. intros r' Hr'. apply Hin. by right.
Qed.

(** The two nested loops add the rank of every pair, in the order of
    [pairs], to the four accumulators. *)
Lemma score_loop_Ok d acc :
  (∀ b r, (b, r) ∈ pairs d → b ∈ books_by_preference r) →
  foldM score_book d acc = Ok (fold_left add_score (ranks d) acc).
Proof.
  revert acc. induction d as [|[b l] d IH]; intros acc Hin; [done|].
  cbn [foldM]. rewrite score_book_Ok.
  - csimpl. rewrite ranks_cons, fold_left_app. apply IH.
    intros b' r' Hbr. apply Hin. rewrite pairs_cons, elem_of_app. by right.
  - intros r Hr. apply Hin. rewrite pairs_cons, elem_of_app. left.
    apply list_elem_of_fmap. by exists r.
Qed.

(** A loop that ends normally has found every book in the list of each of
    its supporters. *)
Lemma score_loop_inv d acc acc' :
  foldM score_book d acc = Ok acc' →
  ∀ b r, (b, r) ∈ pairs d → b ∈ books_by_preference r.
Proof.
  revert acc. induction d as [|[b l] d IH]; intros acc; cbn [foldM].
  - intros _ b r ?%elem_of_nil. done.
  - intros (acc1 & Hbook & Hrest)%bind_Ok b' r'.
    rewrite pairs_cons, elem_of_app. intros [Hin|Hin]; [|by eapply IH].
    apply list_elem_of_fmap in Hin as (r & [= -> ->] & Hr).
    clear Hrest IH. unfold score_book in Hbook. simpl in Hbook.
    revert acc Hbook. induction l as [|r0 l IHl]; intros acc Hbook.
    + by apply elem_of_nil in Hr.
    + cbn [foldM] in Hbook. apply bind_Ok in Hbook as (acc0 & Hu & Hl).
      apply elem_of_cons in Hr as [->|Hr]; [by eapply score_user_inv|].
      by eapply IHl.
Qed.

Lemma add_scores_int rs acc :
  let acc' := fold_left add_score rs acc in
  avg_running_sum acc' = (avg_running_sum acc + sumZ rs)%Z
  ∧ squared_running_sum acc'
      = (squared_running_sum acc + sumZ ((λ n, n ^ 2)%Z <$> rs))%Z
  ∧ score_count acc' = (score_count acc + Z.of_nat (length rs))%Z.
Proof.
  revert acc. induction rs as [|n rs IH]; intros acc; csimpl.
  - split_and!; lia.
  - destruct (IH (add_score acc n)) as (-> & -> & ->). csimpl.
    split_and!; lia.
Qed.

Lemma score_loop_count d acc acc' :
  foldM score_book d acc = Ok acc' →
  score_count acc' = (score_count acc + Z.of_nat (length (pairs d)))%Z.
Proof.
  intros Hloop. pose proof (score_loop_inv _ _ _ Hloop) as Hin.
  rewrite score_loop_Ok in Hloop by done. injection Hloop as <-.
  destruct (add_scores_int (ranks d) acc) as (_ & _ & ->).
  by rewrite length_ranks.
Qed.

(** With no pair at all the count stays 0 and line 69 divides by it. *)
Lemma post_init_no_pairs combo d :
  pairs d = [] → __post_init__ combo d = Raise ZeroDivisionError.
Proof.
  intros Hnil. unfold __post_init__.
  rewrite score_loop_Ok by (rewrite Hnil; intros ?? ?%elem_of_nil; done).
  unfold ranks. rewrite Hnil. reflexivity.
Qed.

Lemma post_init_Ok_pairs combo d s :
  __post_init__ combo d = Ok s →
  0 < length (pairs d)
  ∧ ∀ b r, (b, r) ∈ pairs d → b ∈ books_by_preference r.
Proof.
  unfold __post_init__.
  intros (acc & Hloop & (avg & Havg & _)%bind_Ok)%bind_Ok.
  split; [|by eapply score_loop_inv].
  apply score_loop_count in Hloop. unfold py_int_truediv in Havg.
  destruct (decide (score_count acc = 0%Z)); [done|].
  simpl in Hloop. lia.
Qed.

(** The float accumulator adds the inverses in the order of the pairs. *)
Lemma add_scores_float rs acc :
  harmonic_running_sum (fold_left add_score rs acc)
  = fold_left float_add (int_truediv 1 <$> rs) (harmonic_running_sum acc).
Proof.
  revert acc. induction rs as [|n rs IH]; intros acc; csimpl; [done|].
  by rewrite IH.
Qed.

(** The outcome of the constructor on a mapping with a pair in which every
    supporter lists the book: only an inverse sum equal to zero raises. *)
Lemma post_init_float combo d :
  (∀ b r, (b, r) ∈ pairs d → b ∈ books_by_preference r) →
  0 < length (pairs d) →
  __post_init__ combo d
  = if float_eqb (float_sum (int_truediv 1 <$> ranks d)) (float_of_int 0)
    then Raise ZeroDivisionError
    else Ok (float_summary combo d).
Proof.
  intros Hin Hlen.
  destruct (add_scores_int (ranks d) running_zero) as (Havg & Hsq & Hcnt).
  pose proof (add_scores_float (ranks d) running_zero) as Hharm.
  simpl in Havg, Hsq, Hcnt, Hharm.
  rewrite Z.add_0_l in Havg, Hsq, Hcnt.
  unfold __post_init__. rewrite score_loop_Ok by done.
  cbn [mbind result_bind]. rewrite Havg, Hsq, Hcnt, Hharm.
  unfold py_int_truediv, py_int_float_truediv.
  destruct (decide (Z.of_nat (length (ranks d)) = 0%Z)) as [Hz|_].
  { rewrite length_ranks in Hz. lia. }
  cbn [mbind result_bind]. unfold float_sum.
  destruct (float_eqb _ _); reflexivity.
Qed.

Lemma post_init_float_Ok combo d :
  Forall (λ p, p.1 ∈ books_by_preference p.2) (pairs d) →
  0 < length (pairs d) →
  float_eqb (float_sum (int_truediv 1 <$> ranks d)) (float_of_int 0) = false →
  __post_init__ combo d = Ok (float_summary combo d).
Proof.
  intros Hall Hlen Hsum. rewrite post_init_float, Hsum; [done| |done].
  intros b r Hbr. by apply (proj1 (Forall_forall _ _) Hall (b, r)).
Qed.
End statistics.

(** *** Exact real arithmetic *)

Lemma sumR_IZR rs : sumR (IZR <$> rs) = IZR (sumZ rs).
Proof.
  induction rs as [|n rs IH]; csimpl; [done|]. by rewrite IH, plus_IZR.
Qed.

Lemma sumR_squares rs :
  sumR ((λ n, IZR n * IZR n)%R <$> rs) = IZR (sumZ ((λ n, n ^ 2)%Z <$> rs)).
Proof.
  induction rs as [|n rs IH]; csimpl; [done|].
  by rewrite IH, plus_IZR, Z.pow_2_r, mult_IZR.
Qed.

Lemma sumR_inverses_pos rs :
  Forall (λ n, 1 ≤ n)%Z rs → rs ≠ [] →
  (0 < sumR ((λ n, 1 / IZR n) <$> rs))%R.
Proof.
  assert (∀ n, (1 ≤ n)%Z → (0 < 1 / IZR n)%R) as Hinv.
  { intros n Hn. apply Rdiv_lt_0_compat; [lra|]. apply IZR_lt. lia. }
  assert (∀ l, Forall (λ n, 1 ≤ n)%Z l →
               (0 <= sumR ((λ n, 1 / IZR n) <$> l))%R) as Hnonneg.
  { induction 1 as [|n l Hn _ IH]; csimpl; [lra|].
    specialize (Hinv n Hn). lra. }
  intros Hpos Hne. destruct Hpos as [|n l Hn Hl]; [done|]. csimpl.
  specialize (Hinv n Hn). specialize (Hnonneg l Hl). lra.
Qed.

Lemma add_scores_harmonic rs (acc : running (PF := RFloat)) :
  harmonic_running_sum (fold_left add_score rs acc)
  = (harmonic_running_sum acc + sumR ((λ n, 1 / IZR n) <$> rs))%R.
Proof.
  revert acc. induction rs as [|n rs IH]; intros acc; csimpl.
  - lra.
  - rewrite IH. simpl. lra.
Qed.

Lemma Req_bool_false x y : x ≠ y → Req_bool x y = false.
Proof. intros Hne. unfold Req_bool. by destruct (Req_dec_T x y). Qed.

Lemma Req_bool_true x y : Req_bool x y = true ↔ x = y.
Proof. unfold Req_bool. destruct (Req_dec_T x y); split; done. Qed.

Lemma Rlt_bool_true x y : Rlt_bool x y = true ↔ (x < y)%R.
Proof. unfold Rlt_bool. destruct (Rlt_dec x y); split; done. Qed.

(** Over the real numbers the constructor returns the three means of the
    ranks of all the pairs. *)
Lemma post_init_real (combo : list string) (d : dict (list UserPreference)) :
  (∀ b r, (b, r) ∈ pairs d → b ∈ books_by_preference r) →
  0 < length (pairs d) →
  __post_init__ (PF := RFloat) combo d
  = Ok (@Build_ComboSummary RFloat combo d
          (arithmetic_mean (ranks d))
          (harmonic_mean_of (ranks d))
          (quadratic_mean (ranks d))).
Proof.
  intros Hin Hlen.
  assert (ranks d ≠ []) as Hne.
  { intros Hnil. rewrite <-length_ranks, Hnil in Hlen. simpl in Hlen. lia. }
  pose proof (sumR_inverses_pos (ranks d) (ranks_positive d Hin) Hne) as Hpos.
  destruct (add_scores_int (PF := RFloat) (ranks d) running_zero)
    as (Havg & Hsq & Hcnt).
  pose proof (add_scores_harmonic (ranks d) running_zero) as Hharm.
  simpl in Havg, Hsq, Hcnt, Hharm.
  rewrite Z.add_0_l in Havg, Hsq, Hcnt. rewrite Rplus_0_l in Hharm.
  unfold __post_init__. rewrite score_loop_Ok by done.
  cbn [mbind result_bind]. rewrite Havg, Hsq, Hcnt.
  unfold py_int_truediv, py_int_float_truediv.
  destruct (decide (Z.of_nat (length (ranks d)) = 0%Z)) as [Hz|_].
  { rewrite length_ranks in Hz. lia. }
  rewrite Hharm.
  change (float_eqb ?x ?y) with (Req_bool x y).
  rewrite Req_bool_false by (simpl; lra).
  cbn [mbind result_bind mret result_ret].
  unfold arithmetic_mean, harmonic_mean_of, quadratic_mean.
  rewrite sumR_IZR, sumR_squares, INR_IZR_INZ. reflexivity.
Qed.

(** C2 (amended): on a mapping with at least one (book, supporter) pair in
    which every supporter lists the book, the constructor returns the summary
    whose statistics are the three formulas evaluated in floating point over
    the ranks of all the pairs of the combo taken together, in the order of
    the pairs: (Σ rank)/N with the exact sum, N/(Σ 1/rank) with the inverses
    added one by one, and ((Σ rank²)/N) ** 0.5; the one exception is an
    inverse sum that compares equal to zero, where line 70 raises
    [ZeroDivisionError]. N is the number of pairs and each rank is the
    1-based position of the book's first occurrence in the record's list. *)
Theorem post_init_float_statistics {PF : PyFloat} (combo : list string)
    (d : dict (list UserPreference)) :
  (∀ b r, (b, r) ∈ pairs d → b ∈ books_by_preference r) →
  0 < length (pairs d) →
  __post_init__ combo d
  = (if float_eqb (float_sum (int_truediv 1 <$> ranks d)) (float_of_int 0)
     then Raise ZeroDivisionError
     else Ok {| books := combo;
                book_to_user_pref := d;
                avg_score :=
                  int_truediv (sumZ (ranks d)) (Z.of_nat (length (pairs d)));
                harmonic_mean :=
                  float_div (float_of_int (Z.of_nat (length (pairs d))))
                            (float_sum (int_truediv 1 <$> ranks d));
                root_mean_square :=
                  float_pow_half
                    (int_truediv (sumZ ((λ n, n ^ 2)%Z <$> ranks d))
                                 (Z.of_nat (length (pairs d)))) |})
  ∧ length (ranks d) = length (pairs d)
  ∧ ∀ i b r, pairs d !! i = Some (b, r) →
      ∃ j, ranks d !! i = Some (Z.of_nat j + 1)%Z
           ∧ books_by_preference r !! j = Some b
           ∧ ∀ j', j' < j → books_by_preference r !! j' ≠ Some b.
Proof.
  intros Hin Hlen. split_and!.
  - rewrite post_init_float by done.
    unfold float_summary, float_arithmetic_mean, float_harmonic_mean,
      float_quadratic_mean.
    by rewrite length_ranks.
  - apply length_ranks.
  - intros i b r Hi.
    assert (b ∈ books_by_preference r) as Hb
      by (eapply Hin, list_elem_of_lookup_2; done).
    unfold ranks. rewrite list_lookup_fmap, Hi. simpl. unfold rank_of.
    destruct (position_of b (books_by_preference r)) as [j|] eqn:Hpos.
    + exists j. apply position_of_Some in Hpos as [Hj Hfirst]. done.
    + by apply position_of_None in Hpos.
Qed.

Lemma post_init_float_statistics_witness :
  0 < length (pairs mixed_mapping)
  ∧ ranks mixed_mapping = [3; 3; 1]%Z
  ∧ __post_init__ (PF := DoubleFloat) ["Ulysses"; "Emma"]%string mixed_mapping
    = Ok (@Build_ComboSummary DoubleFloat
            ["Ulysses"; "Emma"]%string mixed_mapping
            (Double.truediv 7 3)
            (SpecFloat.SFdiv Double.prec Double.emax (Double.of_Z 3)
               (float_sum (PF := DoubleFloat)
                  [Double.truediv 1 3; Double.truediv 1 3;
                   Double.truediv 1 1]))
            (SpecFloat.SFsqrt Double.prec Double.emax (Double.truediv 19 3))).
Proof.
  assert (0 < length (pairs mixed_mapping)) as Hlen by (vm_compute; lia).
  assert (∀ b r, (b, r) ∈ pairs mixed_mapping → b ∈ books_by_preference r)
    as Hin.
  { assert (Forall (λ p, p.1 ∈ books_by_preference p.2) (pairs mixed_mapping))
      as Hall by compute_done.
    intros b r Hbr. by apply (proj1 (Forall_forall _ _) Hall (b, r)). }
  assert (@float_eqb DoubleFloat
            (float_sum (int_truediv 1 <$> ranks mixed_mapping))
            (float_of_int 0) = false) as Hsum by (vm_compute; reflexivity).
  split; [exact Hlen|]. split; [reflexivity|].
  destruct (post_init_float_statistics (PF := DoubleFloat)
              ["Ulysses"; "Emma"]%string mixed_mapping Hin Hlen) as [Heq _].
  rewrite Heq, Hsum. reflexivity.
Defined.

(** C2 (as stated) fails in the doubles: for five supporters who all rank
    the one book of the combo third, N / (Σ 1/rank) is 3, which is a double,
    but the five rounded inverses add up to less than 5/3 and the constructor
    stores the next double above 3. *)
Lemma harmonic_mean_rounded :
  ∃ s, __post_init__ (PF := DoubleFloat)
         ["Ulysses"]%string [("Ulysses"%string, five_thirds)] = Ok s
       ∧ ranks (book_to_user_pref s) = [3; 3; 3; 3; 3]%Z
       ∧ harmonic_mean_of (ranks (book_to_user_pref s)) = 3%R
       ∧ harmonic_mean s
         = SpecFloat.S754_finite false 6755399441055745 (-51)
       ∧ Double.value (harmonic_mean s)
         ≠ harmonic_mean_of (ranks (book_to_user_pref s))
       ∧ float_ltb (float_of_int 3) (harmonic_mean s) = true.
Proof.
  exists (float_summary (PF := DoubleFloat)
            ["Ulysses"]%string [("Ulysses"%string, five_thirds)]).
  assert (ranks [("Ulysses"%string, five_thirds)] = [3; 3; 3; 3; 3]%Z) as Hranks
    by reflexivity.
  split.
  { apply post_init_float_Ok; [compute_done|vm_compute; lia|].
    rewrite Hranks. vm_compute. reflexivity. }
  cbn [float_summary book_to_user_pref harmonic_mean]. rewrite Hranks.
  assert (harmonic_mean_of [3; 3; 3; 3; 3]%Z = 3%R) as ->.
  { unfold harmonic_mean_of. simpl. lra. }
  assert (@eq SpecFloat.spec_float
            (float_harmonic_mean (PF := DoubleFloat) [3; 3; 3; 3; 3]%Z)
            (SpecFloat.S754_finite false 6755399441055745 (-51))) as ->
    by (vm_compute; reflexivity).
  split_and!; [done|done|done| |vm_compute; reflexivity].
  unfold Double.value.
  change (2 ^ Z.pos 51)%Z with 2251799813685248%Z. lra.
Qed.

(** C7: construction raises [ZeroDivisionError] whenever the mapping holds no
    (book, supporter) pair, and so does the scorer on a combo none of whose
    books is in any record's list; no number is returned in that case. *)
Theorem scoring_without_supporters {PF : PyFloat} (combo : list string) :
  (∀ d, pairs d = [] → __post_init__ combo d = Raise ZeroDivisionError)
  ∧ (∀ user_prefs,
       (∀ r y, r ∈ user_prefs → y ∈ books_by_preference r → y ∉ combo) →
       from_books_and_user_prefs combo user_prefs = Raise ZeroDivisionError).
Proof.
  split; [apply post_init_no_pairs|].
  intros user_prefs Hnone. unfold from_books_and_user_prefs.
  destruct (assign_supporters_spec combo user_prefs)
    as (d & -> & _ & _ & _ & _ & Hlen).
  csimpl. apply post_init_no_pairs.
  apply length_zero_iff_nil. rewrite Hlen.
  apply length_zero_iff_nil, filter_none.
  intros r Hr [b Hb]. apply first_match_Some in Hb as (i & Hi & Hb & _).
  eapply Hnone; [done| |done]. by eapply list_elem_of_lookup_2.
Qed.

Lemma scoring_without_supporters_witness :
  from_books_and_user_prefs (PF := RFloat) ["Hamlet"]%string [ann; bob; cat]
  = Raise ZeroDivisionError.
Proof.
  apply (proj2 (scoring_without_supporters (PF := RFloat) ["Hamlet"]%string)).
  assert (Forall (λ r, Forall (λ y, y ∉ ["Hamlet"]%string)
                         (books_by_preference r)) [ann; bob; cat])
    as Hall by compute_done.
  intros r y Hr Hy.
  apply (proj1 (Forall_forall _ _) (proj1 (Forall_forall _ _) Hall r Hr) y Hy).
Defined.

(** ** The Quorum Filter *)

Section quorum.
Context {PF : PyFloat}.

Lemma has_quorum_entries (s : ComboSummary) :
  has_quorum s = true ↔
  ∀ b l, (b, l) ∈ book_to_user_pref s → _MIN_GROUP_SIZE ≤ length l.
Proof.
  unfold has_quorum, dict_values. rewrite forallb_forall. split.
  - intros Hall b l Hin. apply Nat.leb_le, Hall, list_elem_of_In.
    apply list_elem_of_fmap. by exists (b, l).
  - intros Hall l Hl%list_elem_of_In.
    apply list_elem_of_fmap in Hl as ([b l'] & -> & Hin).
    apply Nat.leb_le. by eapply Hall.
Qed.

Lemma has_quorum_books (s : ComboSummary) :
  NoDup (dict_keys (book_to_user_pref s)) →
  (∀ b, b ∈ dict_keys (book_to_user_pref s) ↔ b ∈ books s) →
  has_quorum s = true ↔
  ∀ b, b ∈ books s → _MIN_GROUP_SIZE ≤ length (supporters_of s b).
Proof.
  intros Hnd Hkeys. rewrite has_quorum_entries. unfold supporters_of. split.
  - intros Hall b Hb%Hkeys.
    destruct (dict_get_is_Ok _ _ Hb) as [l Hl]. rewrite Hl.
    eapply Hall. by apply dict_get_Ok.
  - intros Hall b l Hin.
    assert (b ∈ books s) as Hb.
    { apply Hkeys, list_elem_of_fmap. by exists (b, l). }
    specialize (Hall b Hb). by rewrite (dict_get_NoDup _ _ _ Hnd Hin) in Hall.
Qed.

Lemma filter_loop (css : list ComboSummary) :
  ∀ filter_count valid,
    fold_left filter_step css (filter_count, valid)
    = (filter_count
         + (length css - length (filter (λ s, has_quorum s = true) css)),
       valid ++ filter (λ s, has_quorum s = true) css).
Proof.
  induction css as [|s css IH]; intros n valid; simpl.
  - f_equal; [lia | by rewrite app_nil_r].
  - pose proof (length_filter (λ s, has_quorum s = true) css) as Hle.
    destruct (has_quorum s) eqn:Hq; rewrite IH.
    + rewrite filter_cons_True by done. rewrite <-app_assoc. simpl.
      f_equal.
    + rewrite filter_cons_False by congruence. f_equal. lia.
Qed.

(** C4: the filter returns the summaries that pass the quorum test, in
    their input order; a summary passes exactly when every list of
    supporters in its mapping has at least [_MIN_GROUP_SIZE] = 3 records,
    which for a mapping keyed by the books of the combo says that every book
    of the combo has that many supporters; the number in the printed line
    is the number of input summaries that were not retained. *)
Theorem filter_invalid_summaries_spec (css : list ComboSummary) :
  ∃ valid,
    filter_invalid_summaries css
    = ("Filtered " +:+ pretty (length css - length valid)
         +:+ " invalid combinations", valid)
    ∧ valid = filter (λ s, has_quorum s = true) css
    ∧ valid `sublist_of` css
    ∧ (∀ s, s ∈ valid ↔ s ∈ css ∧ has_quorum s = true)
    ∧ (∀ s, has_quorum s = true ↔
            ∀ b l, (b, l) ∈ book_to_user_pref s → _MIN_GROUP_SIZE ≤ length l)
    ∧ (∀ s, NoDup (dict_keys (book_to_user_pref s)) →
            (∀ b, b ∈ dict_keys (book_to_user_pref s) ↔ b ∈ books s) →
            has_quorum s = true ↔
            ∀ b, b ∈ books s → _MIN_GROUP_SIZE ≤ length (supporters_of s b))
    ∧ _MIN_GROUP_SIZE = 3.
Proof.
  exists (filter (λ s, has_quorum s = true) css).
  split_and!; try done.
  - unfold filter_invalid_summaries. rewrite filter_loop. done.
  - apply sublist_filter.
  - intros s. rewrite list_elem_of_filter. tauto.
  - apply has_quorum_entries.
  - apply has_quorum_books.
Qed.
End quorum.

(** ** Sorting *)

Section sorted_facts.
Context {A K : Type} (lt : K → K → bool) (key : A → K).

Lemma insert_by_key_perm x l : insert_by_key lt key x l ≡ₚ x :: l.
Proof.
  induction l as [|y l IH]; simpl; [done|].
  destruct (lt (key x) (key y)); [done|].
  rewrite IH. apply Permutation_swap.
Qed.

Lemma sorted_loop_perm l : ∀ placed,
  fold_left (λ placed x, insert_by_key lt key x placed) l placed ≡ₚ placed ++ l.
Proof.
  induction l as [|x l IH]; intros placed; simpl.
  - by rewrite app_nil_r.
  - rewrite IH, insert_by_key_perm. simpl. apply Permutation_middle.
Qed.

Lemma sorted_perm l : sorted lt key l ≡ₚ l.
Proof. unfold sorted. by rewrite sorted_loop_perm. Qed.

(** The laws of a strict weak order, which [<] on the keys obeys. *)
Hypothesis lt_irrefl : ∀ a, lt a a = false.
Hypothesis lt_trans : ∀ a b c, lt a b = true → lt b c = true → lt a c = true.
Hypothesis lt_cotrans :
  ∀ a b c, lt a b = true → lt a c = true ∨ lt c b = true.

Lemma lt_asym a b : lt a b = true → lt b a = false.
Proof.
  intros Hab. destruct (lt b a) eqn:Hba; [|done].
  by rewrite <-(lt_irrefl a), (lt_trans a b a).
Qed.

Lemma key_equiv_lt_l k a b :
  key_equiv lt a k = true → lt a b = true → key_equiv lt b k = false.
Proof.
  unfold key_equiv. intros [Hak Hka]%andb_prop Hab.
  apply negb_true_iff in Hak, Hka.
  destruct (lt_cotrans a b k Hab) as [?|Hkb]; [congruence|].
  rewrite Hkb. by rewrite andb_false_r.
Qed.

Lemma insert_by_key_sorted x l :
  StronglySorted (not_after lt key) l →
  StronglySorted (not_after lt key) (insert_by_key lt key x l).
Proof.
  induction 1 as [|y l Hl IH Hy]; simpl.
  - by repeat constructor.
  - destruct (lt (key x) (key y)) eqn:Hxy.
    + constructor; [by constructor|].
      constructor; [by apply lt_asym|].
      eapply Forall_impl; [exact Hy|]. intros z Hyz. unfold not_after in *.
      destruct (lt (key z) (key x)) eqn:Hzx; [|done].
      by rewrite (lt_trans _ _ _ Hzx Hxy) in Hyz.
    + constructor; [done|].
      rewrite (insert_by_key_perm x l). by constructor.
Qed.

Lemma sorted_loop_sorted l : ∀ placed,
  StronglySorted (not_after lt key) placed →
  StronglySorted (not_after lt key)
    (fold_left (λ placed x, insert_by_key lt key x placed) l placed).
Proof.
  induction l as [|x l IH]; intros placed Hs; simpl; [done|].
  by apply IH, insert_by_key_sorted.
Qed.

Lemma sorted_sorted l : StronglySorted (not_after lt key) (sorted lt key l).
Proof. apply sorted_loop_sorted. constructor. Qed.

(** An element is placed behind all the elements of equivalent key. *)
Lemma insert_by_key_stable k x l :
  StronglySorted (not_after lt key) l →
  filter (λ y, key_equiv lt (key y) k = true) (insert_by_key lt key x l)
  = filter (λ y, key_equiv lt (key y) k = true) (l ++ [x]).
Proof.
  induction 1 as [|y l Hl IH Hy]; simpl; [done|].
  destruct (lt (key x) (key y)) eqn:Hxy.
  - change (y :: l ++ [x]) with ((y :: l) ++ [x]).
    rewrite filter_app, (filter_cons _ x (y :: l)), (filter_cons _ x []).
    rewrite filter_nil.
    destruct (decide (key_equiv lt (key x) k = true)) as [Hxk|Hxk].
    + rewrite (filter_none _ (y :: l)); [done|].
      intros z Hz. rewrite (key_equiv_lt_l k (key x) (key z)); [done..|].
      apply elem_of_cons in Hz as [->|Hz]; [done|].
      rewrite Forall_forall in Hy. specialize (Hy z Hz).
      unfold not_after in Hy.
      destruct (lt_cotrans _ _ (key z) Hxy); [done|congruence].
    + by rewrite app_nil_r.
  - by rewrite !(filter_cons _ y), IH.
Qed.

Lemma sorted_loop_stable k l : ∀ placed,
  StronglySorted (not_after lt key) placed →
  filter (λ y, key_equiv lt (key y) k = true)
    (fold_left (λ placed x, insert_by_key lt key x placed) l placed)
  = filter (λ y, key_equiv lt (key y) k = true) (placed ++ l).
Proof.
  induction l as [|x l IH]; intros placed Hs; simpl.
  - by rewrite app_nil_r.
  - rewrite IH by (by apply insert_by_key_sorted).
    rewrite !filter_app, insert_by_key_stable by done.
    rewrite filter_app, <-app_assoc. f_equal.
    change (x :: l) with ([x] ++ l). by rewrite filter_app.
Qed.

Lemma sorted_stable k l :
  filter (λ y, key_equiv lt (key y) k = true) (sorted lt key l)
  = filter (λ y, key_equiv lt (key y) k = true) l.
Proof. unfold sorted. rewrite sorted_loop_stable; [done|constructor]. Qed.
End sorted_facts.

Lemma StronglySorted_lookup {A} (R : relation A) (l : list A) i j a b :
  StronglySorted R l → i < j → l !! i = Some a → l !! j = Some b → R a b.
Proof.
  intros Hs Hij Hi Hj. rewrite <-(take_drop j l) in Hs.
  eapply StronglySorted_app_1_elem_of; [exact Hs| |].
  - eapply list_elem_of_lookup_2. rewrite lookup_take_lt; done.
  - eapply list_elem_of_lookup_2. rewrite lookup_drop, Nat.add_0_r. done.
Qed.

(** *** The key order over the real numbers *)

Section ranker.
Lemma key_lt_spec (k1 k2 : R * nat) :
  (key_lt (PF := RFloat)) k1 k2 = true ↔
  (k1.1 < k2.1)%R ∨ (k1.1 = k2.1 ∧ k1.2 < k2.2).
Proof.
  destruct k1 as [x1 n1], k2 as [x2 n2]. unfold key_lt. simpl.
  destruct (Req_bool x1 x2) eqn:Heq.
  - apply Req_bool_true in Heq. rewrite Nat.ltb_lt. split; [auto|].
    intros [?|[_ ?]]; [lra|done].
  - rewrite Rlt_bool_true. split; [auto|]. intros [?|[Heq' _]]; [done|].
    apply Req_bool_true in Heq'. congruence.
Qed.

Lemma key_lt_false (k1 k2 : R * nat) :
  (key_lt (PF := RFloat)) k1 k2 = false ↔ key_le k2 k1.
Proof.
  rewrite <-not_true_iff_false, key_lt_spec. unfold key_le.
  destruct (Rtotal_order k1.1 k2.1) as [?|[?|?]];
    destruct (Nat.lt_ge_cases k1.2 k2.2); split; intros ?; try lra;
    intuition (try lra; try lia).
Qed.

Lemma key_lt_irrefl (a : R * nat) : (key_lt (PF := RFloat)) a a = false.
Proof. apply key_lt_false. right. done. Qed.

Lemma key_lt_trans (a b c : R * nat) :
  (key_lt (PF := RFloat)) a b = true →
  (key_lt (PF := RFloat)) b c = true →
  (key_lt (PF := RFloat)) a c = true.
Proof.
  rewrite !key_lt_spec.
  destruct a as [x1 n1], b as [x2 n2], c as [x3 n3]. simpl.
  intros [?|[? ?]] [?|[? ?]]; [left; lra..|].
  right. split; [congruence|lia].
Qed.

Lemma key_lt_cotrans (a b c : R * nat) :
  (key_lt (PF := RFloat)) a b = true →
  (key_lt (PF := RFloat)) a c = true ∨ (key_lt (PF := RFloat)) c b = true.
Proof.
  rewrite !key_lt_spec.
  destruct a as [x1 n1], b as [x2 n2], c as [x3 n3]. simpl. intros Hab.
  destruct (Rtotal_order x1 x3) as [?|[Heq|?]]; [by left; left| |].
  - destruct (Nat.lt_ge_cases n1 n3); [by left; right|].
    right. destruct Hab as [?|[? ?]]; [left; lra|].
    right. split; [congruence|lia].
  - right. left. destruct Hab as [?|[? ?]]; lra.
Qed.

Lemma key_equiv_eq (k1 k2 : R * nat) :
  key_equiv (key_lt (PF := RFloat)) k1 k2 = true ↔ k1 = k2.
Proof.
  unfold key_equiv.
  rewrite andb_true_iff, !negb_true_iff, !key_lt_false. unfold key_le.
  destruct k1 as [x1 n1], k2 as [x2 n2]; simpl. split.
  - intros [[?|[? ?]] [?|[? ?]]]; try lra. f_equal; [done|lia].
  - intros [= -> ->]. split; right; done.
Qed.

(** C5: the Ranker returns a permutation of its input in which the pair
    (quadratic mean, number of books) never decreases from an earlier to a
    later position: the quadratic mean of the later summary is greater, or
    the two are equal and the later combo has at least as many books. The
    summaries with any one quadratic mean and number of books stand in the
    order they had in the input. The quadratic means are compared as the
    real numbers they stand for. *)
Theorem ranker_sorted_stable (valid : list (@ComboSummary RFloat)) :
  sorted_combo_summaries valid ≡ₚ valid
  ∧ (∀ i j a b,
       i < j →
       sorted_combo_summaries valid !! i = Some a →
       sorted_combo_summaries valid !! j = Some b →
       (root_mean_square a < root_mean_square b)%R
       ∨ (root_mean_square a = root_mean_square b
          ∧ length (books a) ≤ length (books b)))
  ∧ (∀ (q : R) (n : nat),
       filter (λ s : @ComboSummary RFloat,
                     root_mean_square s = q ∧ length (books s) = n)
              (sorted_combo_summaries valid)
       = filter (λ s : @ComboSummary RFloat,
                     root_mean_square s = q ∧ length (books s) = n) valid).
Proof.
  unfold sorted_combo_summaries. split_and!.
  - apply sorted_perm.
  - intros i j a b Hij Hi Hj.
    apply (proj1 (key_lt_false (sort_key b) (sort_key a))).
    eapply (StronglySorted_lookup
              (not_after (key_lt (PF := RFloat)) sort_key)); [|done..].
    apply sorted_sorted;
      first [exact key_lt_irrefl | exact key_lt_trans | exact key_lt_cotrans].
  - intros q n.
    rewrite <-!(list_filter_iff
                  (λ s, key_equiv (key_lt (PF := RFloat)) (sort_key s) (q, n)
                        = true)
                  (λ s : @ComboSummary RFloat,
                     root_mean_square s = q ∧ length (books s) = n)).
    + apply sorted_stable;
        first [exact key_lt_irrefl | exact key_lt_trans | exact key_lt_cotrans].
    + intros s. rewrite key_equiv_eq. unfold sort_key.
      split; [by intros [= -> ->]|by intros [-> ->]].
    + intros s. rewrite key_equiv_eq. unfold sort_key.
      split; [by intros [= -> ->]|by intros [-> ->]].
Qed.
End ranker.

(** ** Combinations *)

Section combinations.
Context {A : Type}.
Implicit Types (pool t : list A) (r : nat).

Lemma combinations_0 pool : combinations pool 0 = [[]].
Proof. by destruct pool. Qed.

(** The tuples of [combinations pool r] are the subsequences of the pool
    that have [r] elements. *)
Lemma elem_of_combinations pool r t :
  t ∈ combinations pool r ↔ t `sublist_of` pool ∧ length t = r.
Proof.
  revert r t. induction pool as [|x pool IH]; intros r t.
  - rewrite sublist_nil_r. destruct r; simpl.
    + rewrite list_elem_of_singleton. split; [by intros ->|by intros [-> _]].
    + rewrite elem_of_nil. split; [done|]. by intros [-> ?].
  - destruct r as [|r]; simpl.
    + rewrite list_elem_of_singleton. split.
      * intros ->. split; [apply sublist_nil_l|done].
      * intros [_ Hlen]. by apply nil_length_inv.
    + rewrite elem_of_app, list_elem_of_fmap, sublist_cons_r. split.
      * intros [(t' & -> & [Hsub Hlen]%IH)|[Hsub Hlen]%IH].
        -- split; [right; by exists t'|simpl; by rewrite Hlen].
        -- split; [by left|done].
      * intros [[Hsub|(t' & -> & Hsub)] Hlen].
        -- right. by apply IH.
        -- left. exists t'. split; [done|]. apply IH.
           split; [done|]. simpl in Hlen. lia.
Qed.

Lemma NoDup_combinations pool r : NoDup pool → NoDup (combinations pool r).
Proof.
  revert r. induction pool as [|x pool IH]; intros r Hnd.
  - destruct r; simpl; [apply NoDup_singleton|apply NoDup_nil_2].
  - apply NoDup_cons in Hnd as [Hx Hnd].
    destruct r as [|r]; simpl; [apply NoDup_singleton|].
    apply NoDup_app. split_and!.
    + apply NoDup_fmap_2; [|by apply IH]. by intros ?? [= ->].
    + intros t (t' & -> & _)%list_elem_of_fmap [Hsub _]%elem_of_combinations.
      apply Hx. eapply elem_of_sublist; [|done]. left.
    + by apply IH.
Qed.

Lemma sum_list_fmap_S (g : nat → nat) m :
  sum_list (g <$> seq 0 (S m)) = g 0 + sum_list ((λ k, g (S k)) <$> seq 0 m).
Proof.
  change (seq 0 (S m)) with (0 :: seq 1 m). csimpl. f_equal.
  by rewrite <-fmap_S_seq, <-list_fmap_compose.
Qed.

Lemma sum_list_fmap_add {B} (f g : B → nat) (l : list B) :
  sum_list ((λ k, f k + g k) <$> l) = sum_list (f <$> l) + sum_list (g <$> l).
Proof. induction l as [|x l IH]; csimpl; [done|]. rewrite IH. lia. Qed.

(** Over all sizes the pool has [2 ^ length pool] combinations. *)
Lemma combinations_count pool : ∀ m,
  length pool ≤ m →
  sum_list ((λ r, length (combinations pool r)) <$> seq 0 (S m))
  = 2 ^ length pool.
Proof.
  induction pool as [|x pool IH]; intros m Hm.
  - rewrite sum_list_fmap_S. simpl.
    rewrite (sum_list_fmap_const (seq 0 m) 0). lia.
  - destruct m as [|m]; [simpl in Hm; lia|]. simpl in Hm.
    rewrite sum_list_fmap_S. cbn [combinations].
    rewrite (Forall_fmap_ext_1 _
               (λ k, length (combinations pool k)
                     + length (combinations pool (S k))))
      by (apply Forall_forall; intros k _;
          by rewrite length_app, length_fmap).
    rewrite sum_list_fmap_add, IH by lia.
    pose proof (IH (S m) ltac:(lia)) as HS.
    rewrite sum_list_fmap_S, combinations_0 in HS. simpl length in HS.
    change (2 ^ length (x :: pool)) with (2 * 2 ^ length pool).
    simpl length at 1. lia.
Qed.

(** A subsequence of a duplicate-free list is determined by its elements. *)
Lemma sublist_filter_elem_of `{EqDecision A} t pool :
  t `sublist_of` pool → NoDup pool → t = filter (λ x, x ∈ t) pool.
Proof.
  induction 1 as [|x t pool Hsub IH|x t pool Hsub IH]; intros Hnd.
  - done.
  - apply NoDup_cons in Hnd as [Hx Hnd].
    rewrite filter_cons_True by left. f_equal.
    rewrite (IH Hnd) at 1. apply filter_iff_elem_of.
    intros y Hy. rewrite elem_of_cons.
    split; [auto|]. intros [->|?]; done.
  - apply NoDup_cons in Hnd as [Hx Hnd].
    rewrite filter_cons_False; [by apply IH|].
    intros Hin. apply Hx. by eapply elem_of_sublist.
Qed.
End combinations.

(** ** The Combination Generator *)

Lemma fold_left_extend {A B} (g : B → list A) (ks : list B) (acc : list A) :
  fold_left (λ acc k, acc ++ g k) ks acc = acc ++ (ks ≫= g).
Proof.
  revert acc. induction ks as [|k ks IH]; intros acc; csimpl.
  - by rewrite app_nil_r.
  - by rewrite IH, <-app_assoc.
Qed.

Lemma length_bind {A B} (g : B → list A) (ks : list B) :
  length (ks ≫= g) = sum_list ((λ k, length (g k)) <$> ks).
Proof.
  induction ks as [|k ks IH]; csimpl; [done|]. by rewrite length_app, IH.
Qed.

Lemma generator_blocks (U : gset string) :
  _combinations_for_all_book_counts U
  = seq 1 (size U) ≫=
      λ i, elements (list_to_set (combinations (elements U) i)
                     : gset (list string)).
Proof. unfold _combinations_for_all_book_counts. by rewrite fold_left_extend. Qed.

(** The combos are the non-empty subsequences of the iteration order of the
    set of titles. *)
Lemma elem_of_generator (U : gset string) (t : list string) :
  t ∈ _combinations_for_all_book_counts U
  ↔ t `sublist_of` elements U ∧ t ≠ [].
Proof.
  rewrite generator_blocks, list_elem_of_bind. split.
  - intros (i & Ht & [Hi _]%elem_of_seq).
    apply elem_of_elements, elem_of_list_to_set, elem_of_combinations in Ht
      as [Hsub Hlen].
    split; [done|]. intros ->. simpl in Hlen. lia.
  - intros [Hsub Hne]. exists (length t). split.
    + apply elem_of_elements, elem_of_list_to_set, elem_of_combinations. done.
    + apply elem_of_seq. apply sublist_length in Hsub.
      destruct t; [done|]. simpl in *. unfold size, set_size. simpl. lia.
Qed.

Lemma generator_length (U : gset string) :
  length (_combinations_for_all_book_counts U) = 2 ^ size U - 1.
Proof.
  rewrite generator_blocks, length_bind.
  rewrite (Forall_fmap_ext_1 _ (λ i, length (combinations (elements U) i))).
  - pose proof (combinations_count (elements U) (length (elements U))
                  (Nat.le_refl _)) as Hsum.
    change (length (elements U)) with (size U) in Hsum.
    rewrite sum_list_fmap_S, combinations_0 in Hsum. simpl length in Hsum.
    rewrite <-fmap_S_seq, <-list_fmap_compose.
    unfold compose. lia.
  - apply Forall_forall. intros i _. apply Permutation_length.
    apply elements_list_to_set, NoDup_combinations, NoDup_elements.
Qed.

Lemma generator_NoDup (U : gset string) :
  NoDup (_combinations_for_all_book_counts U).
Proof.
  rewrite generator_blocks. apply NoDup_bind.
  - intros i j t _ _ Hi Hj.
    apply elem_of_elements, elem_of_list_to_set, elem_of_combinations in Hi, Hj.
    destruct Hi as [_ <-], Hj as [_ <-]. done.
  - intros i _. apply NoDup_elements.
  - apply NoDup_seq.
Qed.

(** C3: the generator returns [2 ^ |U| - 1] combos; each is a non-empty
    tuple of distinct titles of [U]; no tuple occurs twice and no two tuples
    have the same set of titles; every non-empty subset of [U] is the set of
    titles of one of the combos. *)
Theorem generator_enumerates_subsets (U : gset string) :
  length (_combinations_for_all_book_counts U) = 2 ^ size U - 1
  ∧ NoDup (_combinations_for_all_book_counts U)
  ∧ NoDup ((list_to_set <$> _combinations_for_all_book_counts U)
           : list (gset string))
  ∧ (∀ t, t ∈ _combinations_for_all_book_counts U →
          t ≠ [] ∧ NoDup t ∧ (list_to_set t : gset string) ⊆ U
          ∧ 1 ≤ length t ≤ size U)
  ∧ (∀ S : gset string, S ≠ ∅ → S ⊆ U →
          ∃ t, t ∈ _combinations_for_all_book_counts U ∧ list_to_set t = S).
Proof.
  split_and!.
  - apply generator_length.
  - apply generator_NoDup.
  - apply NoDup_fmap_2_strong; [|apply generator_NoDup].
    intros t1 t2 [Hsub1 _]%elem_of_generator [Hsub2 _]%elem_of_generator Heq.
    rewrite (sublist_filter_elem_of t1 (elements U) Hsub1 (NoDup_elements U)).
    rewrite (sublist_filter_elem_of t2 (elements U) Hsub2 (NoDup_elements U)).
    apply list_filter_iff. intros x.
    by rewrite <-!(elem_of_list_to_set (C := gset string)), Heq.
  - intros t [Hsub Hne]%elem_of_generator. split_and!.
    + done.
    + eapply sublist_NoDup; [apply (NoDup_elements U)|done].
    + intros x Hx%elem_of_list_to_set. apply elem_of_elements.
      by eapply elem_of_sublist.
    + destruct t; [done|]. simpl. lia.
    + apply sublist_length in Hsub. done.
  - intros S Hne Hsub. exists (filter (λ x, x ∈ S) (elements U)).
    assert (list_to_set (filter (λ x, x ∈ S) (elements U)) = S) as Hset.
    { apply set_eq. intros x.
      rewrite elem_of_list_to_set, list_elem_of_filter, elem_of_elements.
      set_solver. }
    split; [|done]. apply elem_of_generator. split; [apply sublist_filter|].
    intros Hnil. rewrite Hnil in Hset. apply Hne. by rewrite <-Hset.
Qed.

(** ** The whole pipeline *)

Lemma elem_of_get_all_book_titles (user_prefs : list UserPreference) x :
  x ∈ _get_all_book_titles user_prefs
  ↔ ∃ r, r ∈ user_prefs ∧ x ∈ books_by_preference r.
Proof.
  unfold _get_all_book_titles.
  cut (∀ acc : gset string,
         x ∈ fold_left (λ books user_pref,
                          books ∪ list_to_set (books_by_preference user_pref))
                       user_prefs acc
         ↔ x ∈ acc ∨ ∃ r, r ∈ user_prefs ∧ x ∈ books_by_preference r).
  { intros Hcut. rewrite Hcut. set_solver. }
  induction user_prefs as [|r user_prefs IH]; intros acc; simpl.
  - split; [auto|]. intros [?|(r & ?%elem_of_nil & _)]; done.
  - rewrite IH, elem_of_union, elem_of_list_to_set. split.
    + intros [[?|?]|(r' & ? & ?)]; [by left| |].
      * right. exists r. split; [left|done].
      * right. exists r'. split; [by right|done].
    + intros [?|(r' & [->|?]%elem_of_cons & ?)]; [by left; left|by left; right|].
      right. by exists r'.
Qed.

(** Every pair of the mapping joins a record to a book of its own list. *)
Lemma assign_supporters_pairs combo user_prefs d b r :
  assign_supporters combo user_prefs = Ok d →
  (b, r) ∈ pairs d →
  r ∈ user_prefs ∧ first_match combo r = Some b ∧ b ∈ books_by_preference r.
Proof.
  intros Hd (l & Hl & Hr)%elem_of_pairs.
  destruct (assign_supporters_entries _ _ _ _ _ Hd Hl) as [_ ->].
  apply list_elem_of_filter in Hr as [Hfm Hr]. split_and!; [done..|].
  apply first_match_Some in Hfm as (i & Hi & _). by eapply list_elem_of_lookup_2.
Qed.

Lemma foldM_append_Ok {A B} (f : A → result B) (l : list A) (acc : list B) :
  (∀ x, x ∈ l → is_Ok (f x)) →
  is_Ok (foldM (λ acc x, y ← f x; mret (acc ++ [y])) l acc).
Proof.
  revert acc. induction l as [|x l IH]; intros acc Hall; [by eexists|].
  cbn [foldM]. destruct (Hall x) as [y Hy]; [left|]. rewrite Hy. csimpl.
  apply IH. intros x' Hx'. apply Hall. by right.
Qed.

(** C10: every combo that the generator produces from the titles of the
    records themselves is scored without an exception. The mapping has at
    least one (book, supporter) pair, so the count that the statistics divide
    by is not zero; every supporter has its book in its own list, so the rank
    lookup never raises; over the real numbers the constructor therefore
    returns a summary, for each combo and for the list of all of them. *)
Theorem pipeline_scoring_safe (user_prefs : list UserPreference) :
  (∀ combo,
     combo ∈ _combinations_for_all_book_counts (_get_all_book_titles user_prefs) →
     ∃ d (s : @ComboSummary RFloat),
       assign_supporters combo user_prefs = Ok d
       ∧ 1 ≤ length (pairs d)
       ∧ (∀ b r, (b, r) ∈ pairs d →
                 b ∈ books_by_preference r
                 ∧ get_rank_of_book r b = Ok (rank_of r b))
       ∧ from_books_and_user_prefs combo user_prefs = Ok s
       ∧ book_to_user_pref s = d)
  ∧ is_Ok (generate_combo_summaries (PF := RFloat) user_prefs
             (_combinations_for_all_book_counts
                (_get_all_book_titles user_prefs))).
Proof.
  assert (∀ combo,
     combo ∈ _combinations_for_all_book_counts (_get_all_book_titles user_prefs) →
     ∃ d (s : @ComboSummary RFloat),
       assign_supporters combo user_prefs = Ok d
       ∧ 1 ≤ length (pairs d)
       ∧ (∀ b r, (b, r) ∈ pairs d →
                 b ∈ books_by_preference r
                 ∧ get_rank_of_book r b = Ok (rank_of r b))
       ∧ from_books_and_user_prefs combo user_prefs = Ok s
       ∧ book_to_user_pref s = d) as Hcombo.
  { intros combo Hin.
    apply elem_of_generator in Hin as [Hsub Hne].
    destruct (assign_supporters_spec combo user_prefs)
      as (d & Hd & _ & _ & _ & _ & Hlen).
    assert (∀ b r, (b, r) ∈ pairs d → b ∈ books_by_preference r) as Hlisted.
    { intros b r Hbr. by eapply assign_supporters_pairs. }
    assert (1 ≤ length (pairs d)) as Hpos.
    { rewrite Hlen. destruct combo as [|x combo]; [done|].
      assert (x ∈ _get_all_book_titles user_prefs) as Hx.
      { apply elem_of_elements. eapply elem_of_sublist; [left|done]. }
      apply elem_of_get_all_book_titles in Hx as (r & Hr & Hxr).
      assert (r ∈ filter (λ r, is_Some (first_match (x :: combo) r)) user_prefs)
        as Hrf.
      { apply list_elem_of_filter. split; [|done].
        destruct (first_match (x :: combo) r) eqn:Hfm; [by eexists|].
        exfalso. eapply (proj1 (first_match_None _ _) Hfm); [done|left]. }
      destruct (filter _ user_prefs); [by apply elem_of_nil in Hrf|simpl; lia]. }
    pose proof (post_init_real combo d Hlisted Hpos) as Hs.
    eexists d, _. split_and!; [done..| | |].
    - intros b r Hbr. split; [by apply Hlisted|].
      by apply get_rank_of_book_rank_of, Hlisted.
    - unfold from_books_and_user_prefs. rewrite Hd. csimpl. exact Hs.
    - done. }
  split; [exact Hcombo|].
  apply foldM_append_Ok. intros combo Hin.
  destruct (Hcombo combo Hin) as (d & s & _ & _ & _ & Hs & _). by exists s.
Qed.

Lemma pipeline_scoring_safe_witness :
  ["Dune"]%string
    ∈ _combinations_for_all_book_counts (_get_all_book_titles [ann; bob; cat])
  ∧ ∃ s : @ComboSummary RFloat,
      from_books_and_user_prefs ["Dune"]%string [ann; bob; cat] = Ok s.
Proof.
  assert (["Dune"]%string
            ∈ _combinations_for_all_book_counts
                (_get_all_book_titles [ann; bob; cat])) as Hin
    by compute_done.
  split; [exact Hin|].
  destruct (proj1 (pipeline_scoring_safe [ann; bob; cat]) _ Hin)
    as (d & s & _ & _ & _ & Hs & _).
  exists s. exact Hs.
Defined.

(** * Further properties of the program *)

(** ** Loading *)

Lemma from_csv_row_short row :
  ¬ well_formed_row row → from_csv_row row = Raise IndexError.
Proof.
  unfold well_formed_row, from_csv_row, subscript. intros Hshort.
  rewrite (lookup_ge_None_2 row _BOOK_PREFS_COLUMN_IDX) by lia. done.
Qed.

Lemma from_csv_row_Raise row e :
  from_csv_row row = Raise e → e = IndexError ∧ ¬ well_formed_row row.
Proof.
  intros Hraise. destruct (decide (well_formed_row row)) as [Hwf|Hshort].
  - destruct (from_csv_row_well_formed row Hwf) as [up Hup]. congruence.
  - rewrite (from_csv_row_short row Hshort) in Hraise. by injection Hraise as <-.
Qed.

(** A comprehension ends with the exception of its first failing element. *)
Lemma comprehension_Raise {A B} (f : A → result B) (l : list A) e :
  comprehension f l = Raise e ↔
  ∃ l1 x l2, l = l1 ++ x :: l2 ∧ Forall (λ y, is_Ok (f y)) l1 ∧ f x = Raise e.
Proof.
  induction l as [|x l IH]; csimpl.
  - split; [done|]. intros (l1 & y & l2 & Heq & _). by destruct l1.
  - destruct (f x) as [y|e0] eqn:Hx; csimpl.
    + assert (comprehension f l ≫= (λ ys, mret (y :: ys)) = Raise e
              ↔ comprehension f l = Raise e) as ->.
      { destruct (comprehension f l); [|done].
        split; intros Hbad; discriminate Hbad. }
      rewrite IH. split.
      * intros (l1 & z & l2 & -> & Hall & Hz).
        exists (x :: l1), z, l2. split_and!; [done| |done].
        constructor; [by exists y|done].
      * intros ([|x' l1] & z & l2 & Heq & Hall & Hz);
          injection Heq as -> ->; [congruence|].
        apply Forall_cons in Hall as [_ Hall]. by exists l1, z, l2.
    + split.
      * intros [= ->]. exists [], x, l. by split_and!.
      * intros ([|x' l1] & z & l2 & Heq & Hall & Hz);
          injection Heq as -> ->; [congruence|].
        apply Forall_cons in Hall as [[y Hy] _]. congruence.
Qed.

Lemma comprehension_is_Ok {A B} (f : A → result B) (l : list A) :
  is_Ok (comprehension f l) ↔ Forall (λ y, is_Ok (f y)) l.
Proof.
  split.
  - intros [ys Hys]. apply comprehension_inv in Hys.
    induction Hys as [|x y l ys Hxy _ IH]; constructor; [by exists y|done].
  - induction 1 as [|x l [y Hy] _ [ys Hys]]; [by eexists|].
    exists (y :: ys). csimpl. rewrite Hy. csimpl. by rewrite Hys.
Qed.

(** X1: what the Loader does with the rows, once the file is open and the
    CSV reader yields them. When the reader yields no row there is no header
    to skip and [StopIteration] is raised; when a data row does not reach the
    preference column [IndexError] is raised and no record is returned; the
    load returns exactly when there is a header and every data row reaches
    the column. *)
Theorem load_csv_outcome (rows : list (list string)) :
  (_load_csv rows = Raise StopIteration ↔ rows = [])
  ∧ (_load_csv rows = Raise IndexError ↔
     ∃ header data, rows = header :: data
                    ∧ Exists (λ row, length row ≤ _BOOK_PREFS_COLUMN_IDX) data)
  ∧ (is_Ok (_load_csv rows) ↔
     ∃ header data, rows = header :: data ∧ Forall well_formed_row data).
Proof.
  destruct rows as [|header data]; simpl.
  - split_and!.
    + done.
    + split; [done|]. by intros (? & ? & ? & _).
    + split; [by intros [? ?]|]. by intros (? & ? & ? & _).
  - assert (∀ e, comprehension from_csv_row data = Raise e →
                 e = IndexError
                 ∧ Exists (λ row, length row ≤ _BOOK_PREFS_COLUMN_IDX) data)
      as Hraise.
    { intros e (l1 & row & l2 & -> & _ & [-> Hshort]%from_csv_row_Raise)
        %comprehension_Raise.
      split; [done|]. apply Exists_app. right. left.
      unfold well_formed_row in Hshort. lia. }
    split_and!.
    + split; [|done]. intros [? _]%Hraise. done.
    + split.
      * intros [_ Hex]%Hraise. by exists header, data.
      * intros (h & d & [= <- <-] & Hex).
        apply Exists_exists in Hex as (row & Hrow & Hshort).
        apply list_elem_of_split in Hrow as (l1 & l2 & ->).
        assert (¬ Forall (λ y, is_Ok (from_csv_row y)) (l1 ++ row :: l2)) as Hno.
        { intros Hall. apply Forall_app in Hall as [_ Hall].
          apply Forall_cons in Hall as [[up Hup] _].
          rewrite from_csv_row_short in Hup; [done|].
          unfold well_formed_row. lia. }
        rewrite <-comprehension_is_Ok in Hno.
        destruct (comprehension from_csv_row (l1 ++ row :: l2)) as [ups|e] eqn:Hc.
        -- destruct Hno. by exists ups.
        -- by destruct (Hraise e eq_refl) as [-> _].
    + rewrite comprehension_is_Ok. split.
      * intros Hall. exists header, data. split; [done|].
        eapply Forall_impl; [exact Hall|]. intros row [up Hup].
        destruct (decide (well_formed_row row)) as [?|Hshort]; [done|].
        by rewrite from_csv_row_short in Hup.
      * intros (h & d & [= <- <-] & Hall).
        eapply Forall_impl; [exact Hall|]. intros row Hwf.
        destruct (from_csv_row_well_formed row Hwf) as [up Hup]. by exists up.
Qed.

Module StrMore.
Import Str.

Lemma count_commas_append s t :
  count_commas (s +:+ t) = count_commas s + count_commas t.
Proof.
  induction s as [|c s IH]; [done|].
  rewrite StrFacts.append_String. simpl. rewrite IH. lia.
Qed.

Lemma all_space_append s t :
  all_space (s +:+ t) = all_space s && all_space t.
Proof.
  induction s as [|c s IH]; [done|].
  rewrite StrFacts.append_String. simpl. rewrite IH. by rewrite andb_assoc.
Qed.

Lemma lstrip_all_space s : all_space s = true → lstrip s = EmptyString.
Proof.
  induction s as [|c s IH]; simpl; [done|].
  intros [Hc Hs]%andb_prop. rewrite Hc. auto.
Qed.

(** Trimming removes no comma and adds none. *)
Lemma strip_no_comma s : count_commas s = 0 → count_commas (strip s) = 0.
Proof.
  destruct (StrFacts.strip_spec s) as (pre & post & Heq & _).
  intros Hs. rewrite Heq, !count_commas_append in Hs. lia.
Qed.

(** What is left after trimming is empty exactly for a string of white
    space. *)
Lemma strip_empty s : strip s = EmptyString ↔ all_space s = true.
Proof.
  split.
  - destruct (StrFacts.strip_spec s) as (pre & post & Heq & Hpre & Hpost & _).
    intros Hs. rewrite Hs in Heq. rewrite Heq, !all_space_append.
    by rewrite Hpre, Hpost.
  - intros Hs. unfold strip. by rewrite lstrip_all_space.
Qed.
End StrMore.

(** X2: every record that the Loader returns has at least one title, and no
    title holds a comma or starts or ends with white space. *)
Theorem from_csv_row_titles (row : list string) (up : UserPreference) :
  from_csv_row row = Ok up →
  books_by_preference up ≠ []
  ∧ Forall (λ title, Str.count_commas title = 0
                     ∧ Str.starts_with_space title = false
                     ∧ Str.ends_with_space title = false)
           (books_by_preference up).
Proof.
  intros (cell & _ & _ & _ & ->)%from_csv_row_Ok. split.
  - intros Hnil%fmap_nil_inv. by apply StrFacts.split_nonempty in Hnil.
  - apply Forall_fmap. eapply Forall_impl; [apply StrFacts.split_no_comma|].
    intros piece Hpiece. simpl.
    destruct (StrFacts.strip_spec piece) as (_ & _ & _ & _ & _ & Hst & Hend).
    split_and!; [by apply StrMore.strip_no_comma|done..].
Qed.

Lemma from_csv_row_titles_witness :
  ["Dune"; "Emma"; ""]%string ≠ [].
Proof.
  exact (proj1 (from_csv_row_titles
    (sample_row "Ann" "Lee" " Dune,Emma , ")
    {| first_name := "Ann"; last_name := "Lee";
       books_by_preference := ["Dune"; "Emma"; ""] |} eq_refl)).
Defined.

(** X3: nothing is dropped, so the empty title is in the list of a loaded
    record exactly when one of the pieces between the commas of the cell is
    empty or made of white space only. *)
Theorem from_csv_row_empty_title (row : list string) (up : UserPreference)
    (cell : string) :
  from_csv_row row = Ok up →
  row !! _BOOK_PREFS_COLUMN_IDX = Some cell →
  EmptyString ∈ books_by_preference up
  ↔ ∃ piece, piece ∈ Str.split cell ∧ Str.all_space piece = true.
Proof.
  intros (cell' & Hc & _ & _ & ->)%from_csv_row_Ok Hcell.
  assert (cell' = cell) as -> by congruence.
  rewrite list_elem_of_fmap. split.
  - intros (piece & Hs & Hin). exists piece. split; [done|].
    by apply StrMore.strip_empty.
  - intros (piece & Hin & Hs). exists piece. split; [|done].
    symmetry. by apply StrMore.strip_empty.
Qed.

Lemma from_csv_row_empty_title_witness :
  EmptyString ∈ ["Dune"; "Emma"; ""]%string.
Proof.
  apply (proj2 (from_csv_row_empty_title
    (sample_row "Ann" "Lee" " Dune,Emma , ")
    {| first_name := "Ann"; last_name := "Lee";
       books_by_preference := ["Dune"; "Emma"; ""] |}
    " Dune,Emma , " eq_refl eq_refl)).
  exists " "%string. split; [compute_done|reflexivity].
Defined.

(** ** Ranks in lists with repeated titles *)

(** X4: whatever the list holds, the rank lookup returns one more than the
    index of the first occurrence of the book, a number between 1 and the
    length of the list; it raises [ValueError], and nothing else, exactly
    when the book is not in the list; two books never share a rank. *)
Theorem get_rank_of_book_first_occurrence (r : UserPreference) (b : string) :
  (∀ n, get_rank_of_book r b = Ok n ↔
        ∃ i, n = (Z.of_nat i + 1)%Z
             ∧ books_by_preference r !! i = Some b
             ∧ ∀ j, j < i → books_by_preference r !! j ≠ Some b)
  ∧ (get_rank_of_book r b = Raise ValueError ↔ b ∉ books_by_preference r)
  ∧ (∀ e, get_rank_of_book r b = Raise e → e = ValueError)
  ∧ (∀ n, get_rank_of_book r b = Ok n →
          (1 ≤ n ≤ Z.of_nat (length (books_by_preference r)))%Z)
  ∧ (∀ n b', get_rank_of_book r b = Ok n → get_rank_of_book r b' = Ok n →
             b = b').
Proof.
  assert (∀ b n, get_rank_of_book r b = Ok n ↔
        ∃ i, n = (Z.of_nat i + 1)%Z
             ∧ books_by_preference r !! i = Some b
             ∧ ∀ j, j < i → books_by_preference r !! j ≠ Some b) as Hok.
  { intros b0 n. unfold get_rank_of_book. rewrite get_rank_from_position.
    destruct (position_of b0 (books_by_preference r)) as [i|] eqn:Hpos.
    - apply position_of_Some in Hpos as [Hi Hfirst]. split.
      + intros [= <-]. exists i. split_and!; [lia|done..].
      + intros (i' & -> & Hi' & Hfirst'). f_equal.
        destruct (Nat.lt_trichotomy i i') as [Hlt|[->|Hlt]]; [|lia|].
        * by destruct (Hfirst' i Hlt).
        * by destruct (Hfirst i' Hlt).
    - apply position_of_None in Hpos. split; [done|].
      intros (i & _ & Hi & _). destruct Hpos. by eapply list_elem_of_lookup_2. }
  split_and!.
  - apply Hok.
  - unfold get_rank_of_book. rewrite get_rank_from_position.
    destruct (position_of b (books_by_preference r)) as [i|] eqn:Hpos.
    + apply position_of_Some in Hpos as [Hi _]. split; [done|].
      intros Hnotin. destruct Hnotin. by eapply list_elem_of_lookup_2.
    + by apply position_of_None in Hpos.
  - unfold get_rank_of_book. rewrite get_rank_from_position.
    destruct (position_of b (books_by_preference r)); [done|]. by intros e [= <-].
  - intros n (i & -> & Hi%lookup_lt_Some & _)%Hok. lia.
  - intros n b' (i & -> & Hi & _)%Hok (i' & Heq & Hi' & _)%Hok.
    assert (i' = i) as -> by lia. congruence.
Qed.

(** ** The Title Collector *)

(** X5: a title is collected exactly when some record lists it; hence the
    collected set does not depend on the order of the records, the titles of
    two lists of records together are the union of their titles, and the set
    is empty exactly when every record has an empty list. *)
Theorem get_all_book_titles_union (user_prefs : list UserPreference) :
  (∀ x, x ∈ _get_all_book_titles user_prefs
        ↔ ∃ r, r ∈ user_prefs ∧ x ∈ books_by_preference r)
  ∧ (∀ user_prefs', user_prefs ≡ₚ user_prefs' →
        _get_all_book_titles user_prefs' = _get_all_book_titles user_prefs)
  ∧ (∀ more, _get_all_book_titles (user_prefs ++ more)
             = _get_all_book_titles user_prefs ∪ _get_all_book_titles more)
  ∧ (_get_all_book_titles user_prefs = ∅
     ↔ ∀ r, r ∈ user_prefs → books_by_preference r = []).
Proof.
  split_and!.
  - apply elem_of_get_all_book_titles.
  - intros user_prefs' Hperm. apply set_eq. intros x.
    rewrite !elem_of_get_all_book_titles.
    split; intros (r & Hr & Hx); exists r; split; try done.
    + by rewrite Hperm.
    + by rewrite <-Hperm.
  - intros more. apply set_eq. intros x.
    rewrite elem_of_union, !elem_of_get_all_book_titles. split.
    + intros (r & [Hr|Hr]%elem_of_app & Hx); [left|right]; by exists r.
    + intros [(r & Hr & Hx)|(r & Hr & Hx)]; exists r;
        (split; [apply elem_of_app; auto|done]).
  - split.
    + intros Hempty r Hr.
      destruct (books_by_preference r) as [|x l] eqn:Hl; [done|].
      assert (x ∈ _get_all_book_titles user_prefs) as Hx.
      { apply elem_of_get_all_book_titles. exists r. rewrite Hl.
        split; [done|left]. }
      rewrite Hempty in Hx. by apply not_elem_of_empty in Hx.
    + intros Hall. apply set_eq. intros x.
      rewrite elem_of_get_all_book_titles. split.
      * intros (r & Hr & Hx). rewrite (Hall r Hr) in Hx.
        by apply elem_of_nil in Hx.
      * by intros ?%not_elem_of_empty.
Qed.

(** ** The order of the generated combos *)

Lemma StronglySorted_seq a n : StronglySorted le (seq a n).
Proof.
  revert a. induction n as [|n IH]; intros a; simpl; constructor; [done|].
  apply Forall_forall. intros k Hk%elem_of_seq. lia.
Qed.

Lemma StronglySorted_same_length {A} (l : list (list A)) k :
  Forall (λ t, length t = k) l →
  StronglySorted (λ t1 t2, length t1 ≤ length t2) l.
Proof.
  induction 1 as [|t l Ht Hl IH]; constructor; [done|].
  eapply Forall_impl; [exact Hl|]. intros t' Ht'. simpl in *. lia.
Qed.

Lemma StronglySorted_bind_length {A} (g : nat → list (list A)) (ks : list nat) :
  (∀ k t, t ∈ g k → length t = k) →
  StronglySorted le ks →
  StronglySorted (λ t1 t2, length t1 ≤ length t2) (ks ≫= g).
Proof.
  intros Hg. induction 1 as [|k ks Hks IH Hk]; csimpl; [constructor|].
  apply StronglySorted_app_2.
  - intros t1 t2 Ht1%Hg (k' & Ht2%Hg & Hk')%list_elem_of_bind.
    rewrite Forall_forall in Hk. specialize (Hk k' Hk'). lia.
  - apply (StronglySorted_same_length _ k), Forall_forall. auto.
  - done.
Qed.

(** X6: the combos come out by size, those of one book first, then those of
    two books, and so on; there is none exactly when there is no title. *)
Theorem generator_sizes_ascend (U : gset string) :
  (∀ i j t1 t2,
     i ≤ j →
     _combinations_for_all_book_counts U !! i = Some t1 →
     _combinations_for_all_book_counts U !! j = Some t2 →
     length t1 ≤ length t2)
  ∧ (_combinations_for_all_book_counts U = [] ↔ U = ∅).
Proof.
  split.
  - intros i j t1 t2 Hij Hi Hj.
    destruct (decide (i = j)) as [->|Hne]; [by assert (t1 = t2) as -> by congruence|].
    eapply (StronglySorted_lookup (λ t1 t2, length t1 ≤ length t2));
      [|by apply Nat.le_neq|done..].
    rewrite generator_blocks. apply StronglySorted_bind_length.
    + intros k t Ht.
      by apply elem_of_elements, elem_of_list_to_set, elem_of_combinations in Ht
        as [_ Hlen].
    + apply StronglySorted_seq.
  - pose proof (generator_length U) as Hlen. split.
    + intros Hnil. rewrite Hnil in Hlen. simpl in Hlen.
      apply leibniz_equiv, size_empty_inv.
      destruct (size U) as [|n]; [done|].
      pose proof (Nat.pow_nonzero 2 n). rewrite Nat.pow_succ_r' in Hlen. lia.
    + intros ->. apply nil_length_inv. rewrite Hlen. done.
Qed.

(** ** The outcomes of scoring *)

Lemma foldM_Raise {A B} (f : B → A → result B) (l : list A) (b : B) e :
  foldM f l b = Raise e → ∃ x b', x ∈ l ∧ f b' x = Raise e.
Proof.
  revert b. induction l as [|x l IH]; intros b; cbn [foldM]; [done|].
  destruct (f b x) as [b'|e'] eqn:Hx; csimpl.
  - intros (y & b0 & Hy & Hraise)%IH. exists y, b0. split; [by right|done].
  - intros [= ->]. exists x, b. split; [left|done].
Qed.

Lemma foldM_append_comprehension {A B} (f : A → result B) (l : list A)
    (acc : list B) :
  foldM (λ acc x, y ← f x; mret (acc ++ [y])) l acc
  = ys ← comprehension f l; mret (acc ++ ys).
Proof.
  revert acc. induction l as [|x l IH]; intros acc; csimpl.
  - by rewrite app_nil_r.
  - destruct (f x) as [y|e]; csimpl; [|done]. rewrite IH.
    destruct (comprehension f l) as [ys|e]; csimpl; [|done].
    by rewrite <-app_assoc.
Qed.

Section outcomes.
Context {PF : PyFloat}.

Lemma score_user_Raise book acc r e :
  score_user book acc r = Raise e →
  e = ValueError ∧ book ∉ books_by_preference r.
Proof.
  intros Hraise.
  destruct (decide (book ∈ books_by_preference r)) as [Hin|Hnotin].
  - rewrite (score_user_Ok book acc r Hin) in Hraise. done.
  - unfold score_user, get_rank_of_book in Hraise.
    rewrite get_rank_from_position in Hraise.
    rewrite (proj2 (position_of_None book _) Hnotin) in Hraise.
    by injection Hraise as <-.
Qed.

Lemma score_loop_Raise d acc e :
  foldM score_book d acc = Raise e →
  e = ValueError ∧ ∃ b r, (b, r) ∈ pairs d ∧ b ∉ books_by_preference r.
Proof.
  intros ([b l] & acc1 & Hbl & Hraise)%foldM_Raise.
  unfold score_book in Hraise. simpl in Hraise.
  apply foldM_Raise in Hraise as (r & acc2 & Hr & [-> Hnotin]%score_user_Raise).
  split; [done|]. exists b, r. split; [|done].
  apply elem_of_pairs. by exists l.
Qed.

(** X7: a list of combos is scored one by one in order: the call returns
    exactly when the scorer returns for every combo, with one summary per
    combo in the order of the combos, and otherwise it raises what the scorer
    raises for the first combo that fails. *)
Theorem generate_combo_summaries_each (user_prefs : list UserPreference)
    (book_combos : list (list string)) :
  (∀ combo_summaries,
     generate_combo_summaries user_prefs book_combos = Ok combo_summaries
     ↔ Forall2 (λ combo s, from_books_and_user_prefs combo user_prefs = Ok s)
               book_combos combo_summaries)
  ∧ (∀ e,
     generate_combo_summaries user_prefs book_combos = Raise e
     ↔ ∃ before combo after,
         book_combos = before ++ combo :: after
         ∧ Forall (λ c, is_Ok (from_books_and_user_prefs c user_prefs)) before
         ∧ from_books_and_user_prefs combo user_prefs = Raise e).
Proof.
  unfold generate_combo_summaries.
  rewrite (foldM_append_comprehension
             (λ combo, from_books_and_user_prefs combo user_prefs)).
  split.
  - intros css. split.
    + intros (ys & Hys & [= <-])%bind_Ok. by apply comprehension_inv.
    + intros Hall.
      assert (comprehension
                (λ combo, from_books_and_user_prefs combo user_prefs)
                book_combos = Ok css) as ->; [|done].
      induction Hall as [|c s cs ss Hcs _ IH]; csimpl; [done|].
      rewrite Hcs. csimpl. by rewrite IH.
  - intros e. rewrite <-comprehension_Raise.
    destruct (comprehension _ book_combos); csimpl; split; done.
Qed.
End outcomes.

(** X8: over the real numbers the constructor has three outcomes. It raises
    [ValueError] exactly when some record is filed under a book that its list
    does not hold; else it raises [ZeroDivisionError] exactly when nothing is
    filed at all; else it returns a summary. *)
Theorem post_init_outcome (combo : list string)
    (d : dict (list UserPreference)) :
  (__post_init__ (PF := RFloat) combo d = Raise ValueError
   ↔ ∃ b r, (b, r) ∈ pairs d ∧ b ∉ books_by_preference r)
  ∧ (__post_init__ (PF := RFloat) combo d = Raise ZeroDivisionError
     ↔ pairs d = [])
  ∧ (is_Ok (__post_init__ (PF := RFloat) combo d)
     ↔ pairs d ≠ []
       ∧ ∀ b r, (b, r) ∈ pairs d → b ∈ books_by_preference r)
  ∧ (∀ e, __post_init__ (PF := RFloat) combo d = Raise e →
          e = ValueError ∨ e = ZeroDivisionError).
Proof.
  destruct (decide (Forall (λ p, p.1 ∈ books_by_preference p.2) (pairs d)))
    as [Hall|Hbad].
  - assert (∀ b r, (b, r) ∈ pairs d → b ∈ books_by_preference r) as Hlisted.
    { intros b r Hbr. by apply (proj1 (Forall_forall _ _) Hall (b, r)). }
    destruct (decide (pairs d = [])) as [Hnil|Hne].
    + rewrite (post_init_no_pairs combo d Hnil). split_and!.
      * split; [done|]. intros (b & r & Hbr & _). rewrite Hnil in Hbr.
        by apply elem_of_nil in Hbr.
      * done.
      * split; [by intros [? ?]|]. by intros [? _].
      * intros e [= <-]. by right.
    + rewrite (post_init_real combo d Hlisted)
        by (destruct (pairs d); [done|simpl; lia]).
      split_and!.
      * split; [done|]. intros (b & r & Hbr & Hnotin). destruct Hnotin. auto.
      * split; done.
      * split; [done|]. intros _. by eexists.
      * done.
  - apply not_Forall_Exists in Hbad; [|apply _].
    apply Exists_exists in Hbad as ([b r] & Hbr & Hnotin). simpl in Hnotin.
    assert (__post_init__ (PF := RFloat) combo d = Raise ValueError) as Hraise.
    { destruct (__post_init__ (PF := RFloat) combo d) as [s|e] eqn:Hs.
      - apply post_init_Ok_pairs in Hs as [_ Hlisted]. by destruct Hnotin; auto.
      - unfold __post_init__ in Hs.
        destruct (foldM score_book d running_zero) as [acc|e'] eqn:Hloop.
        + pose proof (score_loop_inv _ _ _ Hloop b r Hbr). done.
        + apply score_loop_Raise in Hloop as [-> _]. csimpl in Hs. congruence. }
    rewrite Hraise. split_and!.
    + split; [|done]. intros _. by exists b, r.
    + split; [done|]. intros Hnil. rewrite Hnil in Hbr.
      by apply elem_of_nil in Hbr.
    + split; [by intros [? ?]|]. intros [_ Hlisted]. by destruct Hnotin; auto.
    + intros e [= <-]. by left.
Qed.

(** X9: over the real numbers the scorer returns a summary exactly when at
    least one record lists at least one book of the combo, and otherwise
    raises [ZeroDivisionError]; it raises nothing else, whatever the combo
    (empty, with repeated titles, with titles nobody listed). *)
Theorem scorer_outcome (combo : list string) (user_prefs : list UserPreference) :
  (is_Ok (from_books_and_user_prefs (PF := RFloat) combo user_prefs)
   ↔ ∃ r b, r ∈ user_prefs ∧ b ∈ books_by_preference r ∧ b ∈ combo)
  ∧ (from_books_and_user_prefs (PF := RFloat) combo user_prefs
       = Raise ZeroDivisionError
     ↔ ∀ r b, r ∈ user_prefs → b ∈ books_by_preference r → b ∉ combo)
  ∧ (∀ e, from_books_and_user_prefs (PF := RFloat) combo user_prefs = Raise e →
          e = ZeroDivisionError).
Proof.
  destruct (assign_supporters_spec combo user_prefs)
    as (d & Hd & _ & _ & _ & _ & Hlen).
  assert (∀ b r, (b, r) ∈ pairs d → b ∈ books_by_preference r) as Hlisted.
  { intros b r Hbr. by eapply assign_supporters_pairs. }
  unfold from_books_and_user_prefs. rewrite Hd. csimpl.
  assert (pairs d = [] ↔
          ∀ r b, r ∈ user_prefs → b ∈ books_by_preference r → b ∉ combo)
    as Hnil.
  { rewrite <-length_zero_iff_nil, Hlen, length_zero_iff_nil. split.
    - intros Hnone r b Hr Hb Hcombo.
      eapply (filter_nil_not_elem_of _ _ r Hnone); [|done].
      destruct (first_match combo r) eqn:Hfm; [by eexists|].
      by destruct (proj1 (first_match_None _ _) Hfm b Hb).
    - intros Hnone. apply filter_none. intros r Hr [b Hb].
      apply first_match_Some in Hb as (i & Hi & Hb & _).
      eapply Hnone; [done| |done]. by eapply list_elem_of_lookup_2. }
  destruct (decide (pairs d = [])) as [Hempty|Hne].
  - rewrite (post_init_no_pairs combo d Hempty).
    pose proof (proj1 Hnil Hempty) as Hnone. split_and!.
    + split; [by intros [? ?]|]. intros (r & b & Hr & Hb & Hcombo).
      by destruct (Hnone r b).
    + done.
    + by intros e [= <-].
  - rewrite (post_init_real combo d Hlisted)
      by (destruct (pairs d); [done|simpl; lia]).
    split_and!.
    + split; [|intros _; by eexists]. intros _.
      destruct (decide (Exists (λ r, Exists (λ b, b ∈ combo)
                                  (books_by_preference r)) user_prefs))
        as [Hex|Hno].
      * apply Exists_exists in Hex as (r & Hr & Hex).
        apply Exists_exists in Hex as (b & Hb & Hcombo). by exists r, b.
      * destruct Hne. apply Hnil. intros r b Hr Hb Hcombo. apply Hno.
        apply Exists_exists. exists r. split; [done|].
        apply Exists_exists. by exists b.
    + split; [done|]. intros Hnone. destruct Hne. by apply Hnil.
    + done.
Qed.

(** ** The combo as a set *)

Lemma list_find_iff {A} (P Q : A → Prop)
    `{∀ x, Decision (P x)} `{∀ x, Decision (Q x)} (l : list A) :
  (∀ x, P x ↔ Q x) → list_find P l = list_find Q l.
Proof.
  intros Hiff. induction l as [|x l IH]; csimpl; [done|].
  rewrite IH.
  destruct (decide (P x)) as [HP|HP], (decide (Q x)) as [HQ|HQ]; try done.
  - by destruct HQ; apply Hiff.
  - by destruct HP; apply Hiff.
Qed.

Lemma first_match_iff combo combo' r :
  (∀ x, x ∈ combo ↔ x ∈ combo') → first_match combo r = first_match combo' r.
Proof.
  intros Hiff. unfold first_match.
  by rewrite (list_find_iff (λ b, b ∈ combo) (λ b, b ∈ combo')).
Qed.

Lemma supporters_in_iff combo combo' b user_prefs :
  (∀ x, x ∈ combo ↔ x ∈ combo') →
  supporters_in combo b user_prefs = supporters_in combo' b user_prefs.
Proof.
  intros Hiff. unfold supporters_in. apply list_filter_iff. intros r.
  by rewrite (first_match_iff combo combo').
Qed.

Lemma dict_get_not_in {V} (d : dict V) k :
  k ∉ dict_keys d → dict_get d k = Raise KeyError.
Proof.
  unfold dict_keys. induction d as [|[k' v] d IH]; csimpl; [done|].
  intros [Hne Hnotin]%not_elem_of_cons. rewrite decide_False by done. auto.
Qed.

Lemma dict_keys_fmap {V} (f : string → V) (l : list string) :
  dict_keys ((λ k, (k, f k)) <$> l) = l.
Proof.
  unfold dict_keys. induction l as [|k l IH]; csimpl; [done|]. by rewrite IH.
Qed.

(** A dictionary is the list of its keys, each with its value. *)
Lemma dict_of_keys {V} (d : dict V) (f : string → V) :
  NoDup (dict_keys d) →
  (∀ k, k ∈ dict_keys d → dict_get d k = Ok (f k)) →
  d = (λ k, (k, f k)) <$> dict_keys d.
Proof.
  unfold dict_keys. induction d as [|[k v] d IH]; csimpl; [done|].
  intros [Hk Hnd]%NoDup_cons Hget. f_equal.
  - specialize (Hget k ltac:(left)). rewrite decide_True in Hget by done.
    by injection Hget as ->.
  - apply IH; [done|]. intros k' Hk'.
    specialize (Hget k' ltac:(by right)).
    rewrite decide_False in Hget; [done|]. by intros ->.
Qed.

(** For a combo without repeated titles the mapping lists the books in the
    order of the combo, each with its supporters. *)
Lemma assign_supporters_shape combo user_prefs :
  NoDup combo →
  assign_supporters combo user_prefs
  = Ok ((λ b, (b, supporters_in combo b user_prefs)) <$> combo).
Proof.
  intros Hnd.
  destruct (assign_supporters_spec combo user_prefs)
    as (d & Hd & Hndk & Hkeys & Heq & Hget & _).
  rewrite Hd. f_equal.
  pose proof (dict_of_keys d (λ b, supporters_in combo b user_prefs) Hndk)
    as Hshape.
  rewrite (Heq Hnd) in Hshape. by apply Hshape.
Qed.

Lemma pairs_Permutation (d d' : dict (list UserPreference)) :
  d ≡ₚ d' → pairs d ≡ₚ pairs d'.
Proof. intros Hperm. unfold pairs. by rewrite Hperm. Qed.

Lemma ranks_Permutation (d d' : dict (list UserPreference)) :
  d ≡ₚ d' → ranks d ≡ₚ ranks d'.
Proof.
  intros Hperm. unfold ranks. by rewrite (pairs_Permutation d d' Hperm).
Qed.

Lemma sumZ_Permutation l l' : l ≡ₚ l' → sumZ l = sumZ l'.
Proof.
  induction 1 as [|x l l' _ IH|x y l|l l' l'' _ IH1 _ IH2]; simpl;
    [done|by rewrite IH|lia|congruence].
Qed.

(** The arithmetic and the quadratic mean go through exact sums of ints and
    do not see the order of the ranks. *)
Lemma float_means_Permutation {PF : PyFloat} rs rs' :
  rs ≡ₚ rs' →
  float_arithmetic_mean rs = float_arithmetic_mean rs'
  ∧ float_quadratic_mean rs = float_quadratic_mean rs'.
Proof.
  intros Hperm. unfold float_arithmetic_mean, float_quadratic_mean.
  rewrite (Permutation_length Hperm), (sumZ_Permutation rs rs' Hperm).
  by rewrite (sumZ_Permutation ((λ n, n ^ 2)%Z <$> rs)
                ((λ n, n ^ 2)%Z <$> rs')) by (by rewrite Hperm).
Qed.

(** A summary that the constructor returns is the summary of the three
    float formulas. *)
Lemma post_init_Ok_float {PF : PyFloat} combo d s :
  __post_init__ combo d = Ok s → s = float_summary combo d.
Proof.
  intros Hs. destruct (post_init_Ok_pairs combo d s Hs) as [Hlen Hlisted].
  rewrite (post_init_float combo d Hlisted Hlen) in Hs.
  destruct (float_eqb _ _); [done|]. by injection Hs as <-.
Qed.

(** The scorer returns the summary of the float formulas unless the sum of
    the inverses compares equal to zero. *)
Lemma scorer_float_Ok {PF : PyFloat} combo user_prefs d :
  assign_supporters combo user_prefs = Ok d →
  0 < length (pairs d) →
  float_eqb (float_sum (int_truediv 1 <$> ranks d)) (float_of_int 0) = false →
  from_books_and_user_prefs combo user_prefs = Ok (float_summary combo d).
Proof.
  intros Hd Hlen Hsum. unfold from_books_and_user_prefs. rewrite Hd. csimpl.
  rewrite post_init_float, Hsum; [done| |done].
  intros b r Hbr. by eapply assign_supporters_pairs.
Qed.

(** X10: what scoring keeps when the distinct books of a combo are listed in
    another order, which in the program is the order in which a set happens
    to be iterated. Both orders file the same supporters, in the same order,
    under every book, so the two mappings hold the same entries; and two
    summaries returned for the two orders have the same arithmetic mean, the
    same quadratic mean and the same answer to the quorum test. The harmonic
    mean is left out: its sum of inverses is a float sum in the order of the
    books and may round differently. *)
Theorem scorer_combo_order {PF : PyFloat} (combo combo' : list string)
    (user_prefs : list UserPreference) :
  NoDup combo → combo ≡ₚ combo' →
  ∃ d d',
    assign_supporters combo user_prefs = Ok d
    ∧ assign_supporters combo' user_prefs = Ok d'
    ∧ d ≡ₚ d'
    ∧ (∀ b, dict_get d' b = dict_get d b)
    ∧ ∀ s s',
        from_books_and_user_prefs combo user_prefs = Ok s →
        from_books_and_user_prefs combo' user_prefs = Ok s' →
        book_to_user_pref s = d ∧ book_to_user_pref s' = d'
        ∧ (∀ b, supporters_of s' b = supporters_of s b)
        ∧ avg_score s' = avg_score s
        ∧ root_mean_square s' = root_mean_square s
        ∧ has_quorum s' = has_quorum s.
Proof.
  intros Hnd Hperm.
  assert (NoDup combo') as Hnd' by (by rewrite <-Hperm).
  assert (∀ x, x ∈ combo ↔ x ∈ combo') as Hiff by (intros x; by rewrite Hperm).
  unfold from_books_and_user_prefs.
  rewrite !assign_supporters_shape by done.
  set (d := (λ b, (b, supporters_in combo b user_prefs)) <$> combo).
  set (d' := (λ b, (b, supporters_in combo' b user_prefs)) <$> combo').
  assert (d ≡ₚ d') as Hd.
  { unfold d, d'. rewrite <-Hperm. apply Permutation_refl'.
    apply list_fmap_ext. intros _ b _. f_equal. by apply supporters_in_iff. }
  assert (∀ b, dict_get d' b = dict_get d b) as Hget.
  { intros b.
    assert (dict_keys d = combo) as Hk by apply dict_keys_fmap.
    assert (dict_keys d' = combo') as Hk' by apply dict_keys_fmap.
    destruct (decide (b ∈ combo)) as [Hb|Hb].
    - rewrite (dict_get_NoDup d b (supporters_in combo b user_prefs)).
      + rewrite (dict_get_NoDup d' b (supporters_in combo' b user_prefs)).
        * f_equal. symmetry. by apply supporters_in_iff.
        * by rewrite Hk'.
        * apply list_elem_of_fmap. exists b. split; [done|]. by apply Hiff.
      + by rewrite Hk.
      + apply list_elem_of_fmap. by exists b.
    - rewrite !dict_get_not_in; [done|by rewrite Hk|].
      rewrite Hk'. by rewrite <-Hiff. }
  exists d, d'. split_and!; try done.
  csimpl. intros s s' ->%post_init_Ok_float ->%post_init_Ok_float.
  destruct (float_means_Permutation _ _ (ranks_Permutation d d' Hd))
    as [Havg Hquad].
  unfold float_summary. simpl. split_and!; try done.
  - intros b. unfold supporters_of. simpl. by rewrite Hget.
  - unfold has_quorum, dict_values. simpl.
    apply eq_true_iff_eq. rewrite !forallb_forall.
    split; intros Hall l Hl; apply Hall;
      apply list_elem_of_In; apply list_elem_of_In in Hl.
    + by rewrite <-Hd.
    + by rewrite Hd.
Qed.

(** Ann and Cat rank "Dune" first, Dan ranks "Ulysses" third: the inverses
    are added as 1 + 1 + 1/3 in one order of the two books and as
    1/3 + 1 + 1 in the other, and the two harmonic means are neighbouring
    doubles. *)
Lemma scorer_combo_order_witness :
  ∃ s s' : @ComboSummary DoubleFloat,
    from_books_and_user_prefs ["Dune"; "Ulysses"]%string [ann; cat; dan] = Ok s
    ∧ from_books_and_user_prefs ["Ulysses"; "Dune"]%string [ann; cat; dan]
      = Ok s'
    ∧ avg_score s' = avg_score s
    ∧ root_mean_square s' = root_mean_square s
    ∧ has_quorum s' = has_quorum s
    ∧ harmonic_mean s = SpecFloat.S754_finite false 5790342378047780 (-52)
    ∧ harmonic_mean s' = SpecFloat.S754_finite false 5790342378047781 (-52).
Proof.
  destruct (scorer_combo_order (PF := DoubleFloat)
              ["Dune"; "Ulysses"]%string ["Ulysses"; "Dune"]%string
              [ann; cat; dan])
    as (m & m' & _ & _ & _ & _ & Hsame).
  - compute_done.
  - apply Permutation_swap.
  - set (d := [("Dune", [ann; cat]); ("Ulysses", [dan])]%string).
    set (d' := [("Ulysses", [dan]); ("Dune", [ann; cat])]%string).
    assert (from_books_and_user_prefs (PF := DoubleFloat)
              ["Dune"; "Ulysses"]%string [ann; cat; dan]
            = Ok (float_summary ["Dune"; "Ulysses"]%string d)) as Hs.
    { apply scorer_float_Ok;
        [vm_compute; reflexivity|vm_compute; lia|vm_compute; reflexivity]. }
    assert (from_books_and_user_prefs (PF := DoubleFloat)
              ["Ulysses"; "Dune"]%string [ann; cat; dan]
            = Ok (float_summary ["Ulysses"; "Dune"]%string d')) as Hs'.
    { apply scorer_float_Ok;
        [vm_compute; reflexivity|vm_compute; lia|vm_compute; reflexivity]. }
    destruct (Hsame _ _ Hs Hs') as (_ & _ & _ & Havg & Hquad & Hquorum).
    eexists _, _. split; [exact Hs|]. split; [exact Hs'|].
    split_and!; [exact Havg|exact Hquad|exact Hquorum| |].
    + change (@eq SpecFloat.spec_float
                (float_harmonic_mean (PF := DoubleFloat) (ranks d))
                (SpecFloat.S754_finite false 5790342378047780 (-52))).
      vm_compute. reflexivity.
    + change (@eq SpecFloat.spec_float
                (float_harmonic_mean (PF := DoubleFloat) (ranks d'))
                (SpecFloat.S754_finite false 5790342378047781 (-52))).
      vm_compute. reflexivity.
Defined.

(** ** Larger combos *)

Lemma assign_supporters_pairs_2 combo user_prefs d b r :
  assign_supporters combo user_prefs = Ok d →
  r ∈ user_prefs → first_match combo r = Some b → (b, r) ∈ pairs d.
Proof.
  intros Hd Hr Hfm.
  destruct (assign_supporters_spec combo user_prefs)
    as (d' & Hd' & _ & _ & _ & Hget & _).
  assert (d' = d) as -> by congruence.
  assert (b ∈ combo) as Hb.
  { by apply first_match_Some in Hfm as (i & _ & Hb & _). }
  apply elem_of_pairs. exists (supporters_in combo b user_prefs). split.
  - by apply dict_get_Ok, Hget.
  - by apply list_elem_of_filter.
Qed.

(** The rank of the first match is its index plus one. *)
Lemma first_match_rank combo r b :
  first_match combo r = Some b →
  ∃ i, books_by_preference r !! i = Some b
       ∧ rank_of r b = (Z.of_nat i + 1)%Z
       ∧ ∀ j y, books_by_preference r !! j = Some y → j < i → y ∉ combo.
Proof.
  intros (i & Hi & Hb & Hfirst)%first_match_Some. exists i.
  split_and!; [done| |done]. unfold rank_of.
  rewrite (proj2 (position_of_Some b (books_by_preference r) i)); [done|].
  split; [done|]. intros j Hj Hjb. by eapply Hfirst.
Qed.

(** X11: adding books to a combo never harms a participant. A record that
    supports a book of the smaller combo supports some book of the larger
    one, and at a rank that is the same or better. *)
Theorem larger_combo_improves_rank (combo combo' : list string)
    (user_prefs : list UserPreference) (d d' : dict (list UserPreference)) :
  (∀ x, x ∈ combo → x ∈ combo') →
  assign_supporters combo user_prefs = Ok d →
  assign_supporters combo' user_prefs = Ok d' →
  (∀ b r, (b, r) ∈ pairs d →
          ∃ b', (b', r) ∈ pairs d' ∧ (rank_of r b' ≤ rank_of r b)%Z)
  ∧ length (pairs d) ≤ length (pairs d').
Proof.
  intros Hsub Hd Hd'.
  assert (∀ r b, first_match combo r = Some b →
                 ∃ b', first_match combo' r = Some b'
                       ∧ (rank_of r b' ≤ rank_of r b)%Z) as Hfm.
  { intros r b Hb.
    destruct (first_match_rank combo r b Hb) as (i & Hi & -> & _).
    assert (b ∈ combo') as Hb'.
    { apply Hsub. by apply first_match_Some in Hb as (? & _ & ? & _). }
    destruct (first_match combo' r) as [b'|] eqn:Hfm'.
    - exists b'. split; [done|].
      destruct (first_match_rank combo' r b' Hfm') as (i' & Hi' & -> & Hfirst').
      destruct (decide (i' ≤ i)) as [?|Hgt]; [lia|].
      by destruct (Hfirst' i b Hi ltac:(lia)).
    - pose proof (proj1 (first_match_None combo' r) Hfm') as Hnone.
      destruct (Hnone b); [|done]. by eapply list_elem_of_lookup_2. }
  split.
  - intros b r Hbr.
    destruct (assign_supporters_pairs _ _ _ _ _ Hd Hbr) as (Hr & Hb & _).
    destruct (Hfm r b Hb) as (b' & Hb' & Hle). exists b'. split; [|done].
    by eapply assign_supporters_pairs_2.
  - destruct (assign_supporters_spec combo user_prefs)
      as (d0 & Hd0 & _ & _ & _ & _ & Hlen).
    destruct (assign_supporters_spec combo' user_prefs)
      as (d0' & Hd0' & _ & _ & _ & _ & Hlen').
    assert (d0 = d) as -> by congruence.
    assert (d0' = d') as -> by congruence.
    rewrite Hlen, Hlen'. clear -Hfm.
    induction user_prefs as [|r l IH]; [done|].
    rewrite !filter_cons.
    destruct (decide (is_Some (first_match combo r))) as [[b Hb]|Hno].
    + destruct (Hfm r b Hb) as (b' & Hb' & _).
      rewrite decide_True by (by eexists). simpl. lia.
    + destruct (decide (is_Some (first_match combo' r))); simpl; lia.
Qed.

Lemma larger_combo_improves_rank_witness :
  ∃ d d',
    assign_supporters ["Emma"]%string [ann; bob; cat] = Ok d
    ∧ assign_supporters ["Emma"; "Dune"]%string [ann; bob; cat] = Ok d'
    ∧ length (pairs d) ≤ length (pairs d').
Proof.
  eexists _, _. split; [reflexivity|]. split; [reflexivity|].
  refine (proj2 (larger_combo_improves_rank ["Emma"]%string
                   ["Emma"; "Dune"]%string [ann; bob; cat] _ _ _
                   eq_refl eq_refl)).
  intros x Hx. apply elem_of_cons. by left; apply list_elem_of_singleton.
Defined.

(** ** Quorum *)

Lemma pairs_at_least (d : dict (list UserPreference)) m :
  (∀ b l, (b, l) ∈ d → m ≤ length l) → m * length d ≤ length (pairs d).
Proof.
  induction d as [|[b l] d IH]; intros Hall; [simpl; lia|].
  rewrite pairs_cons, length_app, length_fmap. simpl.
  specialize (Hall b l ltac:(left)) as Hl.
  specialize (IH ltac:(intros b' l' Hin; apply (Hall b' l'); by right)). lia.
Qed.

Section quorum_bound.
Context {PF : PyFloat}.

(** X12: a combo can pass the quorum test only if the participants suffice
    to give every book its group. For a combo of distinct books that was
    scored and passes, three times the number of its books is at most the
    number of (book, supporter) pairs, which is at most the number of
    records. *)
Theorem quorum_needs_participants (combo : list string)
    (user_prefs : list UserPreference) (s : ComboSummary) :
  NoDup combo →
  assign_supporters combo user_prefs = Ok (book_to_user_pref s) →
  has_quorum s = true →
  _MIN_GROUP_SIZE * length combo ≤ length (pairs (book_to_user_pref s))
  ∧ length (pairs (book_to_user_pref s)) ≤ length user_prefs.
Proof.
  intros Hnd Hd Hq.
  destruct (assign_supporters_spec combo user_prefs)
    as (d & Hd' & _ & _ & Hkeys & _ & Hlen).
  assert (d = book_to_user_pref s) as -> by congruence.
  split.
  - rewrite <-(Hkeys Hnd) at 1. unfold dict_keys. rewrite length_fmap.
    apply pairs_at_least. by apply has_quorum_entries.
  - rewrite Hlen. apply length_filter.
Qed.

(** X13: filtering what the filter retained retains all of it and reports
    no rejection; and the retained summaries are never more than the
    summaries given. *)
Theorem filter_invalid_summaries_again (combo_summaries : list ComboSummary) :
  filter_invalid_summaries (filter_invalid_summaries combo_summaries).2
  = ("Filtered 0 invalid combinations",
     (filter_invalid_summaries combo_summaries).2)
  ∧ length (filter_invalid_summaries combo_summaries).2
    ≤ length combo_summaries.
Proof.
  unfold filter_invalid_summaries. rewrite !filter_loop. simpl.
  rewrite list_filter_filter_l by done.
  rewrite Nat.sub_diag. split; [done|]. apply length_filter.
Qed.
End quorum_bound.

Lemma quorum_needs_participants_witness :
  _MIN_GROUP_SIZE * length ["Dune"]%string ≤ length [ann; bob; cat].
Proof.
  pose proof (quorum_needs_participants (PF := RFloat) ["Dune"]%string
                [ann; bob; cat]
                (@Build_ComboSummary RFloat ["Dune"]%string
                   [("Dune"%string, [ann; bob; cat])] 1%R 1%R 1%R))
    as Hbound.
  destruct Hbound as [H1 H2].
  - compute_done.
  - reflexivity.
  - reflexivity.
  - etrans; [exact H1|exact H2].
Defined.

(** ** Bounds on the running sums *)

Lemma ranks_bounded d L :
  (∀ b r, (b, r) ∈ pairs d → b ∈ books_by_preference r) →
  (∀ b r, (b, r) ∈ pairs d → length (books_by_preference r) ≤ L) →
  Forall (λ n, 1 ≤ n ≤ Z.of_nat L)%Z (ranks d).
Proof.
  intros Hlisted Hlen. unfold ranks. apply Forall_fmap, Forall_forall.
  intros [b r] Hbr. simpl. unfold rank_of.
  specialize (Hlisted b r Hbr). specialize (Hlen b r Hbr).
  destruct (position_of b (books_by_preference r)) as [i|] eqn:Hpos.
  - apply position_of_lt in Hpos. lia.
  - by apply position_of_None in Hpos.
Qed.

Lemma sumZ_bounds (lo hi : Z) (l : list Z) :
  Forall (λ n, lo ≤ n ≤ hi)%Z l →
  (Z.of_nat (length l) * lo ≤ sumZ l ≤ Z.of_nat (length l) * hi)%Z.
Proof.
  induction 1 as [|x l Hx _ IH]; [simpl; lia|].
  change (sumZ (x :: l)) with (x + sumZ l)%Z.
  change (length (x :: l)) with (S (length l)). lia.
Qed.

(** X14: the sums that the constructor divides are bounded by the number of
    pairs. When every supporter lists the book and no list of a supporter has
    more than [L] titles, the two loops end normally with the count [N] of
    the pairs, a sum of ranks between [N] and [L * N] and a sum of squares
    between [N] and [L² * N]: before rounding, the mean rank lies between 1
    and [L] and the mean square between 1 and [L²]. *)
Theorem post_init_sums_bounded {PF : PyFloat}
    (d : dict (list UserPreference)) (L : nat) :
  (∀ b r, (b, r) ∈ pairs d → b ∈ books_by_preference r) →
  (∀ b r, (b, r) ∈ pairs d → length (books_by_preference r) ≤ L) →
  ∃ acc,
    foldM score_book d running_zero = Ok acc
    ∧ score_count acc = Z.of_nat (length (pairs d))
    ∧ (score_count acc ≤ avg_running_sum acc
       ≤ Z.of_nat L * score_count acc)%Z
    ∧ (score_count acc ≤ squared_running_sum acc
       ≤ Z.of_nat L * Z.of_nat L * score_count acc)%Z.
Proof.
  intros Hlisted Hbound. eexists. split; [by apply score_loop_Ok|].
  destruct (add_scores_int (ranks d) running_zero) as (-> & -> & ->).
  pose proof (ranks_bounded d L Hlisted Hbound) as Hranks.
  pose proof (sumZ_bounds 1 (Z.of_nat L) (ranks d) Hranks) as Hsum.
  assert (Forall (λ n, 1 ≤ n ≤ Z.of_nat L * Z.of_nat L)%Z
                 ((λ n, n ^ 2)%Z <$> ranks d)) as Hsquares.
  { apply Forall_fmap. eapply Forall_impl; [exact Hranks|].
    intros n [Hn1 Hn2]. unfold compose. rewrite Z.pow_2_r. nia. }
  pose proof (sumZ_bounds 1 (Z.of_nat L * Z.of_nat L)
                ((λ n, n ^ 2)%Z <$> ranks d) Hsquares) as Hsq.
  rewrite length_fmap in Hsq. rewrite length_ranks in *. simpl.
  split_and!; lia.
Qed.

Lemma post_init_sums_bounded_witness :
  ∃ acc : running (PF := DoubleFloat),
    foldM score_book mixed_mapping running_zero = Ok acc
    ∧ score_count acc = 3%Z
    ∧ (3 ≤ avg_running_sum acc ≤ 9)%Z
    ∧ (3 ≤ squared_running_sum acc ≤ 27)%Z.
Proof.
  assert (Forall (λ p, p.1 ∈ books_by_preference p.2
                       ∧ length (books_by_preference p.2) ≤ 3)
                 (pairs mixed_mapping)) as Hall by compute_done.
  rewrite Forall_forall in Hall.
  destruct (post_init_sums_bounded (PF := DoubleFloat) mixed_mapping 3)
    as (acc & Hloop & Hcount & Hsum & Hsq).
  - intros b r Hbr. apply (Hall (b, r) Hbr).
  - intros b r Hbr. apply (Hall (b, r) Hbr).
  - exists acc. rewrite Hcount in Hsum, Hsq.
    split_and!; [exact Hloop|exact Hcount|simpl in *; lia..].
Defined.

(** ** Ranking twice *)

Section sorted_again.
Context {A K : Type} (lt : K → K → bool) (key : A → K).

Lemma insert_by_key_last x placed :
  Forall (λ y, lt (key x) (key y) = false) placed →
  insert_by_key lt key x placed = placed ++ [x].
Proof.
  induction 1 as [|y placed Hy _ IH]; simpl; [done|]. by rewrite Hy, IH.
Qed.

(** A list that is in order already comes back as it is. *)
Lemma sorted_loop_id l : ∀ placed,
  StronglySorted (not_after lt key) (placed ++ l) →
  fold_left (λ placed x, insert_by_key lt key x placed) l placed = placed ++ l.
Proof.
  induction l as [|x l IH]; intros placed Hs; simpl.
  - by rewrite app_nil_r.
  - rewrite insert_by_key_last.
    + rewrite IH; rewrite <-app_assoc; done.
    + apply Forall_forall. intros y Hy.
      eapply (StronglySorted_app_1_elem_of _ _ _ y x Hs); [done|left].
Qed.

Lemma sorted_id l :
  StronglySorted (not_after lt key) l → sorted lt key l = l.
Proof. intros Hs. unfold sorted. by rewrite sorted_loop_id. Qed.
End sorted_again.

(** X15: ranking a ranked list changes nothing, and the Ranker returns as
    many summaries as it was given. *)
Theorem ranker_idempotent (valid : list (@ComboSummary RFloat)) :
  sorted_combo_summaries (sorted_combo_summaries valid)
  = sorted_combo_summaries valid
  ∧ length (sorted_combo_summaries valid) = length valid.
Proof.
  unfold sorted_combo_summaries. split.
  - apply sorted_id. apply sorted_sorted;
      first [exact key_lt_irrefl | exact key_lt_trans | exact key_lt_cotrans].
  - apply Permutation_length, sorted_perm.
Qed.

(** ** Printing *)

Lemma and_then_Ok (p q : printed) lines :
  p = (lines, Ok ()) → and_then p q = (lines ++ q.1, q.2).
Proof. by intros ->. Qed.

Lemma and_then_Raise (p q : printed) lines e :
  p = (lines, Raise e) → and_then p q = (lines, Raise e).
Proof. by intros ->. Qed.

Lemma print_each_Ok {A} (body : A → printed) (l : list A) :
  Forall (λ x, (body x).2 = Ok ()) l →
  print_each body l = (l ≫= (λ x, (body x).1), Ok ()).
Proof.
  induction 1 as [|x l Hx _ IH]; [done|].
  cbn [print_each]. rewrite (and_then_Ok (body x) _ (body x).1), IH.
  - done.
  - destruct (body x) as [lines res]. simpl in *. by rewrite Hx.
Qed.

Lemma print_each_Raise {A} (body : A → printed) (l : list A) e :
  Forall (λ x, (body x).2 = Ok () ∨ (body x).2 = Raise e) l →
  Exists (λ x, (body x).2 = Raise e) l →
  (print_each body l).2 = Raise e.
Proof.
  induction 1 as [|x l Hx _ IH]; intros Hex; [by apply Exists_nil in Hex|].
  cbn [print_each]. unfold and_then. destruct Hx as [Hx|Hx]; rewrite Hx.
  - simpl. apply IH. apply Exists_cons in Hex as [Hx'|Hex]; [congruence|done].
  - done.
Qed.

Lemma get_pretty_name_Ok (user : UserPreference) :
  last_name user ≠ EmptyString → is_Ok (get_pretty_name user).
Proof. unfold get_pretty_name. destruct (last_name user); [done|by eexists]. Qed.

Lemma user_with_book_rank_Ok book user :
  last_name user ≠ EmptyString → book ∈ books_by_preference user →
  is_Ok (user_with_book_rank book user).
Proof.
  intros [name Hname]%get_pretty_name_Ok Hin. unfold user_with_book_rank.
  rewrite Hname. csimpl.
  destruct (get_rank_of_book_rank_of user book Hin) as [-> _]. by eexists.
Qed.

Lemma user_with_book_rank_empty book user :
  last_name user = EmptyString →
  user_with_book_rank book user = Raise IndexError.
Proof.
  intros Hlast. unfold user_with_book_rank, get_pretty_name. by rewrite Hlast.
Qed.

Section printing.
Context {PF : PyFloat}.

Lemma print_book_Ok (s : ComboSummary) prefix book users :
  dict_get (book_to_user_pref s) book = Ok users →
  (∀ r, r ∈ users →
        last_name r ≠ EmptyString ∧ book ∈ books_by_preference r) →
  ∃ lines, print_book s prefix book = (lines, Ok ())
           ∧ length lines = 1 + length users.
Proof.
  intros Hget Hall. unfold print_book. rewrite Hget. simpl.
  assert (is_Ok (comprehension (user_with_book_rank book) users))
    as [names Hnames].
  { apply comprehension_is_Ok, Forall_forall. intros r Hr.
    destruct (Hall r Hr). by apply user_with_book_rank_Ok. }
  rewrite Hnames. simpl.
  rewrite (and_then_Ok _ _ [prefix +:+ book]) by done.
  rewrite print_each_Ok by (by apply Forall_forall).
  eexists. split; [done|]. simpl. f_equal.
  apply comprehension_inv, Forall2_length in Hnames. rewrite Hnames.
  clear. induction names as [|n names IH]; csimpl; [done|]. by rewrite IH.
Qed.

Lemma print_book_Raise (s : ComboSummary) prefix book users :
  dict_get (book_to_user_pref s) book = Ok users →
  (∀ r, r ∈ users → book ∈ books_by_preference r) →
  (∃ r, r ∈ users ∧ last_name r = EmptyString) →
  print_book s prefix book = ([], Raise IndexError).
Proof.
  intros Hget Hall (r & Hr & Hlast). unfold print_book. rewrite Hget. simpl.
  destruct (comprehension (user_with_book_rank book) users) as [names|e]
    eqn:Hnames.
  - apply comprehension_inv in Hnames.
    apply list_elem_of_lookup in Hr as [i Hi].
    destruct (Forall2_lookup_l _ _ _ _ _ Hnames Hi) as (name & _ & Hname).
    by rewrite user_with_book_rank_empty in Hname.
  - simpl. apply comprehension_Raise in Hnames as (l1 & x & l2 & -> & _ & Hx).
    destruct (decide (last_name x = EmptyString)) as [Hempty|Hfull].
    + rewrite user_with_book_rank_empty in Hx by done. congruence.
    + destruct (user_with_book_rank_Ok book x Hfull) as [name Hname];
        [|congruence].
      apply Hall, elem_of_app. right. left.
Qed.

Variable format_2f : float → string.

Lemma print_combo_result_Ok (s : ComboSummary) prefix :
  (∀ b, b ∈ books s → b ∈ dict_keys (book_to_user_pref s)) →
  (∀ b r, b ∈ books s → r ∈ supporters_of s b →
          last_name r ≠ EmptyString ∧ b ∈ books_by_preference r) →
  ∃ lines,
    print_combo_result format_2f s prefix = (lines, Ok ())
    ∧ length lines
      = 4 + sum_list ((λ b, 1 + length (supporters_of s b)) <$> books s).
Proof.
  intros Hkeys Hall. unfold print_combo_result.
  assert (∀ b, b ∈ books s →
            ∃ lines, print_book s prefix b = (lines, Ok ())
                     ∧ length lines = 1 + length (supporters_of s b)) as Hbook.
  { intros b Hb. destruct (dict_get_is_Ok _ _ (Hkeys b Hb)) as [users Hget].
    pose proof (Hall b) as Hallb. unfold supporters_of in *.
    rewrite Hget in *. apply print_book_Ok; [done|]. intros r Hr. by apply Hallb. }
  rewrite !(and_then_Ok (print _) _ [_]) by done.
  rewrite print_each_Ok.
  - eexists. split; [done|]. simpl. do 4 f_equal.
    rewrite length_bind. f_equal. apply Forall_fmap_ext_1, Forall_forall.
    intros b Hb. destruct (Hbook b Hb) as (lines & Hp & Hl).
    rewrite Hp. simpl. rewrite Hl. done.
  - apply Forall_forall. intros b Hb.
    destruct (Hbook b Hb) as (lines & -> & _). done.
Qed.

(** X17: printing a summary whose mapping has a list for each of its books,
    each supporter listing the book. When every such supporter has a
    non-empty last name, four lines of statistics are printed and then, for
    each book, its title and one line per supporter. When some supporter has
    an empty last name the printing stops with [IndexError], after the four
    lines of statistics at the earliest. *)
Theorem print_combo_result_outcome (s : ComboSummary) (prefix : string) :
  (∀ b, b ∈ books s → b ∈ dict_keys (book_to_user_pref s)) →
  (∀ b r, b ∈ books s → r ∈ supporters_of s b → b ∈ books_by_preference r) →
  ((∀ b r, b ∈ books s → r ∈ supporters_of s b → last_name r ≠ EmptyString) →
   ∃ lines,
     print_combo_result format_2f s prefix = (lines, Ok ())
     ∧ length lines
       = 4 + sum_list ((λ b, 1 + length (supporters_of s b)) <$> books s))
  ∧ ((∃ b r, b ∈ books s ∧ r ∈ supporters_of s b
             ∧ last_name r = EmptyString) →
     ∃ lines,
       print_combo_result format_2f s prefix = (lines, Raise IndexError)
       ∧ 4 ≤ length lines).
Proof.
  intros Hkeys Hlisted. split.
  - intros Hnames. apply print_combo_result_Ok; [done|].
    intros b r Hb Hr. split; [by eapply Hnames|by apply Hlisted].
  - intros (b & r & Hb & Hr & Hlast). unfold print_combo_result.
    rewrite !(and_then_Ok (print _) _ [_]) by done.
    assert ((print_each (print_book s prefix) (books s)).2 = Raise IndexError)
      as Hraise.
    { apply print_each_Raise.
      - apply Forall_forall. intros b' Hb'.
        destruct (dict_get_is_Ok _ _ (Hkeys b' Hb')) as [users Hget].
        pose proof (Hlisted b' ) as Hl. unfold supporters_of in Hl.
        rewrite Hget in Hl.
        destruct (decide (Exists (λ r, last_name r = EmptyString) users))
          as [Hex|Hno].
        + right. apply Exists_exists in Hex as (r' & Hr' & Hlast').
          rewrite (print_book_Raise s prefix b' users); [done|done|auto|].
          by exists r'.
        + left.
          destruct (print_book_Ok s prefix b' users Hget) as (lines & -> & _);
            [|done].
          intros r' Hr'. split; [|by apply Hl].
          intros Hlast'. apply Hno, Exists_exists. by exists r'.
      - apply Exists_exists. exists b. split; [done|].
        destruct (dict_get_is_Ok _ _ (Hkeys b Hb)) as [users Hget].
        pose proof (Hlisted b) as Hl. unfold supporters_of in Hl, Hr.
        rewrite Hget in Hl, Hr.
        rewrite (print_book_Raise s prefix b users); [done|done|auto|].
        by exists r. }
    destruct (print_each (print_book s prefix) (books s)) as [lines res].
    simpl in Hraise. subst res. eexists. split; [done|]. simpl. lia.
Qed.
End printing.

Lemma print_combo_result_outcome_witness :
  ∃ lines,
    print_combo_result (PF := RFloat) (λ _, "?"%string)
      (@Build_ComboSummary RFloat ["Dune"; "Emma"]%string sample_mapping
         1%R 1%R 1%R) "  "
    = (lines, Ok ())
    ∧ length lines = 9.
Proof.
  set (s := @Build_ComboSummary RFloat ["Dune"; "Emma"]%string sample_mapping
              1%R 1%R 1%R).
  assert (Forall (λ b, b ∈ dict_keys sample_mapping
                       ∧ Forall (λ r, b ∈ books_by_preference r
                                      ∧ last_name r ≠ EmptyString)
                                (supporters_of s b))
                 ["Dune"; "Emma"]%string) as Hall by compute_done.
  rewrite Forall_forall in Hall.
  apply (proj1 (print_combo_result_outcome (PF := RFloat) (λ _, "?"%string)
                  s "  "
                  (λ b Hb, proj1 (Hall b Hb))
                  (λ b r Hb Hr,
                     proj1 (proj1 (Forall_forall _ _) (proj2 (Hall b Hb)) r Hr)))).
  intros b r Hb Hr.
  exact (proj2 (proj1 (Forall_forall _ _) (proj2 (Hall b Hb)) r Hr)).
Defined.

(** ** The whole run *)

(** A summary that the scorer returned has a list for every book of its
    combo, filled with records of the input that list the book. *)
Lemma scorer_summary_facts {PF : PyFloat} combo user_prefs (s : ComboSummary) :
  from_books_and_user_prefs combo user_prefs = Ok s →
  books s = combo
  ∧ (∀ b, b ∈ combo → b ∈ dict_keys (book_to_user_pref s))
  ∧ (∀ b r, b ∈ combo → r ∈ supporters_of s b →
            r ∈ user_prefs ∧ b ∈ books_by_preference r).
Proof.
  intros [Hbooks Hd]%from_books_and_user_prefs_mapping.
  destruct (assign_supporters_spec combo user_prefs)
    as (d & Hd' & _ & Hkeys & _ & Hget & _).
  assert (d = book_to_user_pref s) as -> by congruence.
  split_and!; [done|by intros b ?%Hkeys|].
  intros b r Hb Hr. unfold supporters_of in Hr. rewrite (Hget b Hb) in Hr.
  apply list_elem_of_filter in Hr as [Hfm Hr]. split; [done|].
  apply first_match_Some in Hfm as (i & Hi & _). by eapply list_elem_of_lookup_2.
Qed.

(** Over the real numbers the scorer returns for every combo that the
    generator makes from the titles of the records. *)
Lemma generated_combo_scored (user_prefs : list UserPreference) combo :
  combo ∈ _combinations_for_all_book_counts (_get_all_book_titles user_prefs) →
  is_Ok (from_books_and_user_prefs (PF := RFloat) combo user_prefs).
Proof.
  intros [Hsub Hne]%elem_of_generator.
  destruct (assign_supporters_spec combo user_prefs)
    as (d & Hd & _ & _ & _ & _ & Hlen).
  unfold from_books_and_user_prefs. rewrite Hd. csimpl.
  rewrite (post_init_real combo d); [by eexists| |].
  - intros b r Hbr. by eapply assign_supporters_pairs.
  - rewrite Hlen. destruct combo as [|x combo]; [done|].
    assert (x ∈ _get_all_book_titles user_prefs) as Hx.
    { apply elem_of_elements. eapply elem_of_sublist; [left|done]. }
    apply elem_of_get_all_book_titles in Hx as (r & Hr & Hxr).
    assert (r ∈ filter (λ r, is_Some (first_match (x :: combo) r)) user_prefs)
      as Hrf.
    { apply list_elem_of_filter. split; [|done].
      destruct (first_match (x :: combo) r) eqn:Hfm; [by eexists|].
      exfalso. eapply (proj1 (first_match_None _ _) Hfm); [done|left]. }
    destruct (filter _ user_prefs); [by apply elem_of_nil in Hrf|simpl; lia].
Qed.

Section run_facts.
Context {PF : PyFloat} (format_2f : float → string).

Lemma print_results_Ok user_prefs book_titles book_combos valid ranked :
  Forall (λ s, (print_combo_result format_2f s "  ").2 = Ok ())
         (take 3 ranked) →
  ∃ rest,
    print_results format_2f user_prefs book_titles book_combos valid ranked
    = ([ "Dad's Book Club Book Selection Results"; "";
         "Found optimal book selection(s) for "
           +:+ pretty (length user_prefs) +:+ " people and "
           +:+ pretty (size book_titles) +:+ " books.";
         "Considered " +:+ pretty (length book_combos)
           +:+ " different book combinations of which "
           +:+ pretty (length valid)
           +:+ " had enough people in each group." ]%string ++ rest, Ok ())
    ∧ (ranked = [] → rest = []).
Proof.
  intros Hall. unfold print_results.
  rewrite !(and_then_Ok (print _) _ [_]) by done.
  rewrite print_each_Ok.
  - eexists. split; [done|]. by intros ->.
  - apply Forall_forall. intros entry (j & s & -> & Hs)%elem_of_lookup_imap.
    apply list_elem_of_lookup_2 in Hs.
    rewrite Forall_forall in Hall. specialize (Hall s Hs).
    unfold print_ranked. rewrite !(and_then_Ok (print _) _ [_]) by done. done.
Qed.
End run_facts.

(** X18: a run on a header and data rows that all reach the preference
    column and have a non-empty last name ends without an exception (over the
    real numbers). Its first five lines are the line of the filter and the
    heading of the report, where the number of people is the number of data
    rows, the number of combinations is 2 to the number of titles minus 1,
    the number of rejected combinations and the number of retained ones add
    up to it, and nothing more is printed when no combination is retained. *)
Theorem run_with_report_succeeds (format_2f : R → string)
    (header : list string) (data : list (list string)) :
  Forall (λ row, well_formed_row row
                 ∧ row !! _LAST_NAME_COLUMN_IDX ≠ Some EmptyString) data →
  ∃ (user_prefs : list UserPreference) (valid : list (@ComboSummary RFloat))
    (rest : list string),
    _load_csv (header :: data) = Ok user_prefs
    ∧ length valid ≤ 2 ^ size (_get_all_book_titles user_prefs) - 1
    ∧ run_with_report (PF := RFloat) format_2f (header :: data)
      = ([ "Filtered "
             +:+ pretty (2 ^ size (_get_all_book_titles user_prefs) - 1
                         - length valid)
             +:+ " invalid combinations";
           "Dad's Book Club Book Selection Results"; "";
           "Found optimal book selection(s) for "
             +:+ pretty (length data) +:+ " people and "
             +:+ pretty (size (_get_all_book_titles user_prefs)) +:+ " books.";
           "Considered "
             +:+ pretty (2 ^ size (_get_all_book_titles user_prefs) - 1)
             +:+ " different book combinations of which "
             +:+ pretty (length valid)
             +:+ " had enough people in each group." ]%string ++ rest, Ok ())
    ∧ (valid = [] → rest = []).
Proof.
  intros Hrows.
  assert (is_Ok (comprehension from_csv_row data)) as [user_prefs Hload].
  { apply comprehension_is_Ok. eapply Forall_impl; [exact Hrows|].
    intros row [Hwf _]. destruct (from_csv_row_well_formed row Hwf) as [up Hup].
    by exists up. }
  pose proof (comprehension_inv _ _ _ Hload) as Hrecords.
  assert (∀ r, r ∈ user_prefs → last_name r ≠ EmptyString) as Hnames.
  { intros r [i Hi]%list_elem_of_lookup.
    destruct (Forall2_lookup_r _ _ _ _ _ Hrecords Hi) as (row & Hrow & Hr).
    apply from_csv_row_Ok in Hr as (_ & _ & _ & Hlast & _).
    rewrite Forall_forall in Hrows.
    destruct (Hrows row ltac:(by eapply list_elem_of_lookup_2)) as [_ Hne].
    intros Hempty. rewrite Hempty in Hlast. done. }
  set (book_titles := _get_all_book_titles user_prefs).
  set (book_combos := _combinations_for_all_book_counts book_titles).
  assert (is_Ok (comprehension
                   (λ combo, from_books_and_user_prefs (PF := RFloat)
                               combo user_prefs) book_combos))
    as [summaries Hsummaries].
  { apply comprehension_is_Ok, Forall_forall. intros combo Hcombo.
    by apply generated_combo_scored. }
  pose proof (comprehension_inv _ _ _ Hsummaries) as Hscored.
  set (valid := filter (λ s, has_quorum s = true) summaries).
  exists user_prefs, valid.
  assert (length summaries = 2 ^ size book_titles - 1) as Hcount.
  { rewrite <-(Forall2_length _ _ _ Hscored). apply generator_length. }
  assert (Forall (λ s, (print_combo_result (PF := RFloat) format_2f s "  ").2
                       = Ok ())
                 (take 3 (sorted_combo_summaries valid))) as Hprint.
  { apply Forall_forall. intros s Hs%(subseteq_take 3).
    assert (s ∈ summaries) as Hin.
    { unfold sorted_combo_summaries in Hs.
      rewrite (sorted_perm key_lt sort_key valid) in Hs.
      by apply list_elem_of_filter in Hs as [_ Hs]. }
    apply list_elem_of_lookup in Hin as [i Hi].
    destruct (Forall2_lookup_r _ _ _ _ _ Hscored Hi) as (combo & _ & Hcombo).
    destruct (scorer_summary_facts _ _ _ Hcombo) as (Hbooks & Hkeys & Hsupp).
    destruct (print_combo_result_Ok (PF := RFloat) format_2f s "  ")
      as (lines & -> & _);
      [by rewrite Hbooks| |done].
    rewrite Hbooks. intros b r Hb Hr. destruct (Hsupp b r Hb Hr). auto. }
  destruct (print_results_Ok (PF := RFloat) format_2f user_prefs book_titles
              book_combos valid (sorted_combo_summaries valid) Hprint)
    as (rest & Hreport & Hrest).
  exists rest. split_and!.
  - done.
  - pose proof (length_filter (λ s, has_quorum s = true) summaries) as Hle.
    fold valid in Hle. unfold book_titles in Hcount. lia.
  - unfold run_with_report. cbn [_load_csv]. rewrite Hload.
    cbn [compute_then]. fold book_titles. fold book_combos.
    unfold generate_combo_summaries.
    rewrite (foldM_append_comprehension
               (λ combo, from_books_and_user_prefs combo user_prefs)).
    rewrite Hsummaries. csimpl.
    unfold filter_invalid_summaries. rewrite filter_loop. fold valid.
    cbn [app]. rewrite (and_then_Ok (print _) _ [_]) by done.
    rewrite Hreport. simpl.
    rewrite Hcount.
    rewrite <-(Forall2_length _ _ _ Hrecords).
    unfold book_combos. rewrite generator_length. done.
  - intros Hvalid. apply Hrest. by rewrite Hvalid.
Qed.

Lemma run_with_report_succeeds_witness :
  ∃ user_prefs : list UserPreference,
    _load_csv [ sample_row "First" "Last" "Books";
                sample_row "Ann" "Lee" "Dune, Emma";
                sample_row "Bob" "Ray" "Emma,Dune" ] = Ok user_prefs
    ∧ (run_with_report (PF := RFloat) (λ _, "?"%string)
         [ sample_row "First" "Last" "Books";
           sample_row "Ann" "Lee" "Dune, Emma";
           sample_row "Bob" "Ray" "Emma,Dune" ]).2 = Ok ().
Proof.
  destruct (run_with_report_succeeds (λ _, "?"%string)
              (sample_row "First" "Last" "Books")
              [ sample_row "Ann" "Lee" "Dune, Emma";
                sample_row "Bob" "Ray" "Emma,Dune" ])
    as (user_prefs & valid & rest & Hload & Hle & Hrun & _).
  - repeat constructor; unfold well_formed_row; try (vm_compute; lia);
      discriminate.
  - exists user_prefs. split; [exact Hload|]. exact (f_equal snd Hrun).
Defined.

Lemma load_csv_short_row header data :
  Exists (λ row, ¬ well_formed_row row) data →
  _load_csv (header :: data) = Raise IndexError.
Proof.
  intros Hex. simpl.
  destruct (comprehension from_csv_row data) as [ups|e] eqn:Hload.
  - apply comprehension_inv in Hload.
    apply Exists_exists in Hex as (row & [i Hi]%list_elem_of_lookup & Hshort).
    destruct (Forall2_lookup_l _ _ _ _ _ Hload Hi) as (up & _ & Hup).
    by rewrite from_csv_row_short in Hup.
  - apply comprehension_Raise in Hload
      as (l1 & row & l2 & _ & _ & [-> _]%from_csv_row_Raise).
    done.
Qed.

(** X19: an input that cannot be loaded ends the run before anything is
    printed, the line of the filter included: with no row at all the run
    raises [StopIteration], with a data row that does not reach the preference
    column it raises [IndexError], whatever the other rows hold. *)
Theorem run_with_report_input_errors {PF : PyFloat}
    (format_2f : float → string) :
  run_with_report format_2f [] = ([], Raise StopIteration)
  ∧ ∀ header data,
      Exists (λ row, length row ≤ _BOOK_PREFS_COLUMN_IDX) data →
      run_with_report format_2f (header :: data) = ([], Raise IndexError).
Proof.
  split; [done|]. intros header data Hex. unfold run_with_report.
  rewrite load_csv_short_row; [done|].
  eapply Exists_impl; [exact Hex|]. intros row Hshort. unfold well_formed_row.
  simpl in Hshort. lia.
Qed.
